(** * Pessoas API: versioned rows with an event log (app/main.py)

    A shallow embedding of the request handlers of [app/main.py] and the
    helpers they are built from.  The two tables are explicit state, the
    handlers are functions from a database state to a result that is
    either an error or the committed state with the returned row. *)

From stdpp Require Import gmap strings list fin_maps sorting.
From Stdlib Require Import ZArith Lia.

Local Open Scope Z_scope.

(** ** JSON values and dictionaries *)

(** What the JSON columns [changes] and [state_after] hold. *)
Inductive value :=
| VNone
| VBool (b : bool)
| VInt (n : Z)
| VStr (s : string).

#[global] Instance value_eq_dec : EqDecision value.
Proof. solve_decision. Defined.

(** [Dict[str, Any]]: equality of Python dicts ignores insertion order, so
    a finite map is the right carrier. *)
Abbreviation dict := (gmap string value).

(** [apply_changes]: copy the base state, then assign every item of the
    delta. *)
Definition apply_changes (base_state changes : dict) : dict :=
  map_fold (fun k v new_state => <[k:=v]> new_state) base_state changes.

(** ** Dates and timestamps

    The handlers touch a [date] or [datetime] only through [isoformat] and
    [date.fromisoformat]; both are carried here by their ISO-8601 text. *)
Record date := Date { date_iso : string }.
Record datetime := DateTime { datetime_iso : string }.

Definition date_isoformat (d : date) : string := date_iso d.
Definition date_fromisoformat (s : string) : date := Date s.
Definition datetime_isoformat (t : datetime) : string := datetime_iso t.

(** ** Rows of the two tables and request payloads

    Field names carry the name of the variable the source reads them from
    ([p.nome], [ev.changes], [payload.version]). *)

Record Pessoa := mkPessoa {
  p_id : Z;
  p_nome : string;
  p_cpf : string;
  p_data_nascimento : date;
  p_version : Z;
  p_deleted : bool;
  p_updated_at : option datetime;
  p_created_at : option datetime;
}.

Record PessoaEvent := mkPessoaEvent {
  ev_id : Z;
  ev_pessoa_id : Z;
  ev_base_version : Z;
  ev_new_version : Z;
  ev_changes : dict;
  ev_state_after : dict;
  ev_created_at : datetime;
}.

Record PessoaCreate := mkPessoaCreate {
  create_nome : string;
  create_cpf : string;
  create_data_nascimento : date;
}.

Record PessoaPatch := mkPessoaPatch {
  patch_version : Z;
  patch_nome : option string;
  patch_cpf : option string;
  patch_data_nascimento : option date;
}.

(** Attribute assignments on the ORM object. *)
Definition set_nome (p : Pessoa) (s : string) : Pessoa :=
  mkPessoa (p_id p) s (p_cpf p) (p_data_nascimento p) (p_version p)
           (p_deleted p) (p_updated_at p) (p_created_at p).
Definition set_cpf (p : Pessoa) (s : string) : Pessoa :=
  mkPessoa (p_id p) (p_nome p) s (p_data_nascimento p) (p_version p)
           (p_deleted p) (p_updated_at p) (p_created_at p).
Definition set_data_nascimento (p : Pessoa) (d : date) : Pessoa :=
  mkPessoa (p_id p) (p_nome p) (p_cpf p) d (p_version p)
           (p_deleted p) (p_updated_at p) (p_created_at p).
Definition set_version (p : Pessoa) (v : Z) : Pessoa :=
  mkPessoa (p_id p) (p_nome p) (p_cpf p) (p_data_nascimento p) v
           (p_deleted p) (p_updated_at p) (p_created_at p).
Definition set_deleted (p : Pessoa) (b : bool) : Pessoa :=
  mkPessoa (p_id p) (p_nome p) (p_cpf p) (p_data_nascimento p) (p_version p)
           b (p_updated_at p) (p_created_at p).

(** ** The session: both tables and their id sequences

    Table [pessoa] is keyed by its primary key, table [pessoa_event] is kept
    in insertion order. *)
Record Session := mkSession {
  pessoa : gmap Z Pessoa;
  pessoa_event : list PessoaEvent;
  pessoa_id_seq : Z;
  pessoa_event_id_seq : Z;
}.

Definition empty_session : Session := mkSession ∅ [] 0 0.

(** ** Errors

    The [HTTPException]s the handlers raise, under the names of the error
    taxonomy, and the exceptions of the ORM and of dict and date access. *)
Inductive error :=
| NotFound              (* 404, Pessoa nao encontrada *)
| InvalidVersion        (* 400, Versao invalida *)
| Conflict              (* 409, CPF ja cadastrado / ja utilizado *)
| VersionAhead          (* 409, Versao do cliente adiantada *)
| VersionNotFound       (* 409, Versao solicitada inexistente *)
| Stale                 (* 409, Versao desatualizada para DELETE *)
| MultipleResultsFound  (* one_or_none() on more than one row *)
| IntegrityError        (* unique constraint of pessoa.cpf *)
| KeyError              (* d[k] on a missing key *)
| TypeError.            (* a JSON value that is not a str *)

Definition status_code (e : error) : Z :=
  match e with
  | NotFound => 404
  | InvalidVersion => 400
  | Conflict | VersionAhead | VersionNotFound | Stale => 409
  | MultipleResultsFound | IntegrityError | KeyError | TypeError => 500
  end.

Inductive result (A : Type) :=
| Ok (a : A)
| Err (e : error).
Arguments Ok {A} a.
Arguments Err {A} e.

Definition bind {A B : Type} (c : result A) (k : A -> result B) : result B :=
  match c with
  | Ok a => k a
  | Err e => Err e
  end.

Notation "'let*' x ':=' c 'in' k" := (bind c (fun x => k))
  (at level 10, x pattern, c at level 100, k at level 200).

(** ** Helpers *)

Definition pessoa_to_dict (p : Pessoa) : dict :=
  <["id" := VInt (p_id p)]>
  (<["nome" := VStr (p_nome p)]>
  (<["cpf" := VStr (p_cpf p)]>
  (<["data_nascimento" := VStr (date_isoformat (p_data_nascimento p))]>
  (<["version" := VInt (p_version p)]>
  (<["deleted" := VBool (p_deleted p)]>
  (<["updated_at" := match p_updated_at p with
                     | Some t => VStr (datetime_isoformat t)
                     | None => VNone
                     end]> ∅)))))).

(** [Query.one_or_none()]. *)
Definition one_or_none {A : Type} (rows : list A) : result (option A) :=
  match rows with
  | [] => Ok None
  | [r] => Ok (Some r)
  | _ => Err MultipleResultsFound
  end.

(** [d[k]] where the caller needs a [str]. *)
Definition get_str (d : dict) (k : string) : result string :=
  match d !! k with
  | None => Err KeyError
  | Some (VStr s) => Ok s
  | Some _ => Err TypeError
  end.

(** The events of one entity, in insertion order. *)
Definition events_of (sess : Session) (pessoa_id : Z) : list PessoaEvent :=
  filter (fun ev => ev_pessoa_id ev = pessoa_id) (pessoa_event sess).

Definition snapshot_at_version (sess : Session) (pessoa_id target_version : Z)
  : result dict :=
  let* ev :=
    one_or_none
      (filter (fun ev => ev_pessoa_id ev = pessoa_id
                         /\ ev_new_version ev = target_version)
              (pessoa_event sess)) in
  match ev with
  | None => Err VersionNotFound
  | Some ev => Ok (ev_state_after ev)
  end.

(** [order_by(PessoaEvent.new_version.asc())]. *)
Fixpoint insert_by_new_version (ev : PessoaEvent) (evs : list PessoaEvent)
  : list PessoaEvent :=
  match evs with
  | [] => [ev]
  | ev' :: rest =>
      if decide (ev_new_version ev <= ev_new_version ev')
      then ev :: ev' :: rest
      else ev' :: insert_by_new_version ev rest
  end.

Definition order_by_new_version (evs : list PessoaEvent) : list PessoaEvent :=
  foldr insert_by_new_version [] evs.

(** The query of [replay_forward]: the events of the entity with
    [from_version < new_version <= to_version], oldest first. *)
Definition query_events_between (sess : Session)
    (pessoa_id from_version to_version : Z) : list PessoaEvent :=
  order_by_new_version
    (filter (fun ev => ev_pessoa_id ev = pessoa_id
                       /\ ev_new_version ev > from_version
                       /\ ev_new_version ev <= to_version)
            (pessoa_event sess)).

Definition replay_forward (sess : Session) (pessoa_id from_version to_version : Z)
    (state : dict) : dict :=
  if decide (to_version <= from_version) then state
  else
    let evs := query_events_between sess pessoa_id from_version to_version in
    foldl (fun s ev => apply_changes s (ev_changes ev)) state evs.

Definition persist_event (now : datetime) (sess : Session) (pessoa_row : Pessoa)
    (base_version : Z) (changes : dict) : Session :=
  let state_after : dict :=
    <["id" := VInt (p_id pessoa_row)]>
    (<["nome" := VStr (p_nome pessoa_row)]>
    (<["cpf" := VStr (p_cpf pessoa_row)]>
    (<["data_nascimento" :=
         VStr (date_isoformat (p_data_nascimento pessoa_row))]>
    (<["version" := VInt (p_version pessoa_row)]>
    (<["deleted" := VBool (p_deleted pessoa_row)]>
    (<["updated_at" := match p_updated_at pessoa_row with
                       | Some t => VStr (datetime_isoformat t)
                       | None => VNone
                       end]> ∅)))))) in
  let ev :=
    mkPessoaEvent (pessoa_event_id_seq sess + 1) (p_id pessoa_row) base_version
                  (p_version pessoa_row) changes state_after now in
  mkSession (pessoa sess) (pessoa_event sess ++ [ev])
            (pessoa_id_seq sess) (pessoa_event_id_seq sess + 1).

(** ** Queries and flushes on table pessoa *)

(** [filter(Pessoa.id == pessoa_id, Pessoa.deleted == False).one_or_none()]:
    a primary key selects at most one row. *)
Definition query_pessoa (sess : Session) (pessoa_id : Z) : option Pessoa :=
  match pessoa sess !! pessoa_id with
  | Some p => if p_deleted p then None else Some p
  | None => None
  end.

(** [filter(Pessoa.cpf == cpf, Pessoa.deleted == False).one_or_none()]. *)
Definition query_cpf (sess : Session) (cpf : string) : result (option Pessoa) :=
  one_or_none
    (filter (fun p => p_cpf p = cpf /\ p_deleted p = false)
            (map_to_list (pessoa sess)).*2).

(** [filter(Pessoa.cpf == cpf, Pessoa.id != pessoa_id,
            Pessoa.deleted == False).one_or_none()]. *)
Definition query_cpf_other (sess : Session) (cpf : string) (pessoa_id : Z)
  : result (option Pessoa) :=
  one_or_none
    (filter (fun kp => p_cpf kp.2 = cpf /\ kp.1 <> pessoa_id
                       /\ p_deleted kp.2 = false)
            (map_to_list (pessoa sess))).*2.

(** The column [cpf] is declared [unique=True]: a flush that would leave two
    rows, deleted or not, with one cpf fails. *)
Definition cpf_unique_violation (sess : Session) (pessoa_id : Z) (cpf : string)
  : bool :=
  bool_decide
    (Exists (fun kp => kp.1 <> pessoa_id /\ p_cpf kp.2 = cpf)
            (map_to_list (pessoa sess))).

(** [sess.add(p); sess.flush()]: the INSERT draws the next id from the
    sequence of the table and takes the column defaults [func.now()].  The
    sequence is outside the transaction: a value drawn stays drawn when the
    INSERT then fails on the unique constraint and the request is rolled
    back.  So the flush answers with the value the sequence is left at,
    beside its outcome. *)
Definition flush_insert (now : datetime) (sess : Session) (p : Pessoa)
  : Z * result (Session * Pessoa) :=
  let new_id := pessoa_id_seq sess + 1 in
  (new_id,
   if cpf_unique_violation sess new_id (p_cpf p) then Err IntegrityError
   else
     let p := mkPessoa new_id (p_nome p) (p_cpf p) (p_data_nascimento p)
                       (p_version p) (p_deleted p) (Some now) (Some now) in
     Ok (mkSession (<[new_id := p]> (pessoa sess)) (pessoa_event sess)
                   new_id (pessoa_event_id_seq sess), p)).

(** [sess.flush()] of a modified row: the UPDATE sets [updated_at] through
    [onupdate=func.now()]. *)
Definition flush_update (now : datetime) (sess : Session) (p : Pessoa)
  : result (Session * Pessoa) :=
  if cpf_unique_violation sess (p_id p) (p_cpf p) then Err IntegrityError
  else
    let p := mkPessoa (p_id p) (p_nome p) (p_cpf p) (p_data_nascimento p)
                      (p_version p) (p_deleted p) (Some now) (p_created_at p) in
    Ok (mkSession (<[p_id p := p]> (pessoa sess)) (pessoa_event sess)
                  (pessoa_id_seq sess) (pessoa_event_id_seq sess), p).

(** ** The handlers

    Each handler returns the session as committed together with the row it
    answers with, or the exception it raised; in that case the session is
    closed without a commit and the tables stay as they were.  Only the
    INSERT of [create_pessoa] draws from a sequence before it can fail, so
    that handler also says where it leaves the id sequence. *)

Definition get_pessoa (sess : Session) (pessoa_id : Z) : result Pessoa :=
  match query_pessoa sess pessoa_id with
  | None => Err NotFound
  | Some p => Ok p
  end.

(** The body of [create_pessoa]: the value the id sequence is left at, and
    the outcome.  A request stopped by the handler's own cpf check never
    reaches the INSERT and draws no id. *)
Definition create_pessoa_tx (now : datetime) (sess : Session)
    (payload : PessoaCreate) : Z * result (Session * Pessoa) :=
  match query_cpf sess (create_cpf payload) with
  | Err e => (pessoa_id_seq sess, Err e)
  | Ok (Some _) => (pessoa_id_seq sess, Err Conflict)
  | Ok None =>
      let p := mkPessoa 0 (create_nome payload) (create_cpf payload)
                        (create_data_nascimento payload) 1 false None None in
      let (id_seq, flushed) := flush_insert now sess p in
      (id_seq,
       let* (sess, p) := flushed in
       let changes : dict :=
         <["nome" := VStr (p_nome p)]>
         (<["cpf" := VStr (p_cpf p)]>
         (<["data_nascimento" := VStr (date_isoformat (p_data_nascimento p))]>
         (<["deleted" := VBool false]> ∅))) in
       let sess := persist_event now sess p 0 changes in
       Ok (sess, p))
  end.

(** What [create_pessoa] answers with. *)
Definition create_pessoa (now : datetime) (sess : Session)
    (payload : PessoaCreate) : result (Session * Pessoa) :=
  (create_pessoa_tx now sess payload).2.

(** The changes a PATCH payload provides; the uniqueness of a provided cpf
    is checked while they are collected. *)
Definition collect_provided_changes (sess : Session) (pessoa_id : Z)
    (payload : PessoaPatch) : result dict :=
  let provided_changes : dict := ∅ in
  let provided_changes :=
    match patch_nome payload with
    | Some nome => <["nome" := VStr nome]> provided_changes
    | None => provided_changes
    end in
  let* provided_changes :=
    match patch_cpf payload with
    | Some cpf =>
        let* other := query_cpf_other sess cpf pessoa_id in
        match other with
        | Some _ => Err Conflict
        | None => Ok (<["cpf" := VStr cpf]> provided_changes)
        end
    | None => Ok provided_changes
    end in
  let provided_changes :=
    match patch_data_nascimento payload with
    | Some d =>
        <["data_nascimento" := VStr (date_isoformat d)]> provided_changes
    | None => provided_changes
    end in
  Ok provided_changes.

Definition patch_pessoa (now : datetime) (sess : Session) (pessoa_id : Z)
    (payload : PessoaPatch) : result (Session * Pessoa) :=
  match query_pessoa sess pessoa_id with
  | None => Err NotFound
  | Some p =>
      let current_version := p_version p in
      let client_version := patch_version payload in
      if decide (client_version <= 0) then Err InvalidVersion
      else
        let* provided_changes :=
          collect_provided_changes sess pessoa_id payload in
        if decide (provided_changes = ∅) then Ok (sess, p)
        else if decide (client_version = current_version) then
          let base_version := current_version in
          let* p :=
            if decide (is_Some (provided_changes !! "nome"))
            then let* nome := get_str provided_changes "nome" in
                 Ok (set_nome p nome)
            else Ok p in
          let* p :=
            if decide (is_Some (provided_changes !! "cpf"))
            then let* cpf := get_str provided_changes "cpf" in
                 Ok (set_cpf p cpf)
            else Ok p in
          let* p :=
            if decide (is_Some (provided_changes !! "data_nascimento"))
            then let* d := get_str provided_changes "data_nascimento" in
                 Ok (set_data_nascimento p (date_fromisoformat d))
            else Ok p in
          let p := set_version p (current_version + 1) in
          let* (sess, p) := flush_update now sess p in
          let sess := persist_event now sess p base_version provided_changes in
          Ok (sess, p)
        else if decide (client_version > current_version) then Err VersionAhead
        else
          let* base_snapshot :=
            snapshot_at_version sess pessoa_id client_version in
          let merged := apply_changes base_snapshot provided_changes in
          let final_state :=
            replay_forward sess pessoa_id client_version current_version
                           merged in
          let base_version := current_version in
          let* nome := get_str final_state "nome" in
          let p := set_nome p nome in
          let* cpf := get_str final_state "cpf" in
          let p := set_cpf p cpf in
          let* d := get_str final_state "data_nascimento" in
          let p := set_data_nascimento p (date_fromisoformat d) in
          let p := set_version p (current_version + 1) in
          let* (sess, p) := flush_update now sess p in
          let changes_now : dict :=
            <["nome" := VStr (p_nome p)]>
            (<["cpf" := VStr (p_cpf p)]>
            (<["data_nascimento" :=
                 VStr (date_isoformat (p_data_nascimento p))]> ∅)) in
          let sess := persist_event now sess p base_version changes_now in
          Ok (sess, p)
  end.

Definition delete_pessoa (now : datetime) (sess : Session) (pessoa_id : Z)
    (version : Z) : result (Session * Pessoa) :=
  match query_pessoa sess pessoa_id with
  | None => Err NotFound
  | Some p =>
      if decide (version < p_version p) then Err Stale
      else
        let base_version := p_version p in
        let p := set_deleted p true in
        let p := set_version p (p_version p + 1) in
        let* (sess, p) := flush_update now sess p in
        let changes : dict := <["deleted" := VBool true]> ∅ in
        let sess := persist_event now sess p base_version changes in
        Ok (sess, p)
  end.

(** ** Histories of requests *)

Inductive request :=
| CreatePessoa (payload : PessoaCreate)
| PatchPessoa (pessoa_id : Z) (payload : PessoaPatch)
| DeletePessoa (pessoa_id : Z) (version : Z).

Definition handle (now : datetime) (sess : Session) (req : request)
  : result (Session * Pessoa) :=
  match req with
  | CreatePessoa payload => create_pessoa now sess payload
  | PatchPessoa pessoa_id payload => patch_pessoa now sess pessoa_id payload
  | DeletePessoa pessoa_id version => delete_pessoa now sess pessoa_id version
  end.

(** The tables once the request is over: the committed session, or the old
    one when the handler raised. *)
Definition session_after (sess : Session) (r : result (Session * Pessoa))
  : Session :=
  match r with
  | Ok (sess', _) => sess'
  | Err _ => sess
  end.

(** A rolled-back request that drew from the id sequence: both tables as
    they were, the sequence where the request left it. *)
Definition rolled_back (sess : Session) (id_seq : Z) : Session :=
  mkSession (pessoa sess) (pessoa_event sess) id_seq
            (pessoa_event_id_seq sess).

(** The session once the request is over.  PATCH and DELETE draw from no
    sequence before they can fail; a POST leaves the id sequence where its
    INSERT left it, also when it is rolled back. *)
Definition run (sess : Session) (now : datetime) (req : request) : Session :=
  match req with
  | CreatePessoa payload =>
      match create_pessoa_tx now sess payload with
      | (_, Ok (sess', _)) => sess'
      | (id_seq, Err _) => rolled_back sess id_seq
      end
  | _ => session_after sess (handle now sess req)
  end.

(** The sessions a sequence of requests leads to from the empty tables. *)
Inductive reachable : Session -> Prop :=
| reachable_empty : reachable empty_session
| reachable_step (sess : Session) (now : datetime) (req : request) :
    reachable sess -> reachable (run sess now req).

(** The fields a PATCH payload carries, as [collect_provided_changes]
    lays them out when no uniqueness check fails. *)
Definition payload_changes (payload : PessoaPatch) : dict :=
  let provided_changes : dict := ∅ in
  let provided_changes :=
    match patch_nome payload with
    | Some nome => <["nome" := VStr nome]> provided_changes
    | None => provided_changes
    end in
  let provided_changes :=
    match patch_cpf payload with
    | Some cpf => <["cpf" := VStr cpf]> provided_changes
    | None => provided_changes
    end in
  match patch_data_nascimento payload with
  | Some d => <["data_nascimento" := VStr (date_isoformat d)]> provided_changes
  | None => provided_changes
  end.

(** No row other than [pessoa_id], deleted or not, holds [cpf]. *)
Definition cpf_free (sess : Session) (pessoa_id : Z) (cpf : string) : Prop :=
  forall k q, pessoa sess !! k = Some q -> k <> pessoa_id -> p_cpf q <> cpf.

(** ** Well-formed sessions

    What every history keeps true of the two tables. *)

(** Two states agree when they differ at most on the keys that every
    snapshot stamps afresh, [version] and [updated_at]. *)
Definition agree (s1 s2 : dict) : Prop :=
  forall k, k <> "version" -> k <> "updated_at" -> s1 !! k = s2 !! k.

(** The log of one entity, oldest event first, from version [n] on: each
    event steps the version by one, and its snapshot agrees with its delta
    applied to the snapshot before it. *)
Fixpoint log_chain (pessoa_id n : Z) (prev : option dict)
    (evs : list PessoaEvent) : Prop :=
  match evs with
  | [] => True
  | ev :: rest =>
      ev_pessoa_id ev = pessoa_id
      /\ ev_base_version ev = n
      /\ ev_new_version ev = n + 1
      /\ match prev with
         | Some s => agree (ev_state_after ev) (apply_changes s (ev_changes ev))
         | None => True
         end
      /\ log_chain pessoa_id (n + 1) (Some (ev_state_after ev)) rest
  end.

(** The snapshot of the last event, or [prev] when there is none. *)
Fixpoint last_state (prev : option dict) (evs : list PessoaEvent)
  : option dict :=
  match evs with
  | [] => prev
  | ev :: rest => last_state (Some (ev_state_after ev)) rest
  end.

(** The three text fields of a row: a snapshot holds a [str] for each, a
    delta holds a [str] for those it carries. *)
Definition has_str (d : dict) (k : string) : Prop :=
  exists s, d !! k = Some (VStr s).

Definition str_or_absent (d : dict) (k : string) : Prop :=
  match d !! k with
  | Some (VStr _) | None => True
  | Some _ => False
  end.

Definition str_fields (state : dict) : Prop :=
  has_str state "nome" /\ has_str state "cpf"
  /\ has_str state "data_nascimento".

Definition str_changes (changes : dict) : Prop :=
  str_or_absent changes "nome" /\ str_or_absent changes "cpf"
  /\ str_or_absent changes "data_nascimento".

Record session_wf (sess : Session) : Prop := {
  wf_key : forall k p,
    pessoa sess !! k = Some p -> p_id p = k /\ k <= pessoa_id_seq sess;
  wf_fk : forall ev,
    ev ∈ pessoa_event sess -> is_Some (pessoa sess !! ev_pessoa_id ev);
  wf_log : forall k p,
    pessoa sess !! k = Some p ->
    log_chain k 0 None (events_of sess k)
    /\ Z.of_nat (length (events_of sess k)) = p_version p
    /\ last_state None (events_of sess k) = Some (pessoa_to_dict p);
  wf_str : forall ev,
    ev ∈ pessoa_event sess ->
    str_fields (ev_state_after ev) /\ str_changes (ev_changes ev);
}.

(** The version the row of an entity is at, 0 before it is created. *)
Definition current_version (sess : Session) (pessoa_id : Z) : Z :=
  match pessoa sess !! pessoa_id with
  | Some p => p_version p
  | None => 0
  end.

(** A handler committed one write: it stored the row [p'] under its id and
    appended one event for it, a step of one version from the row that was
    there, or the founding step 0 -> 1. *)
Definition row_written (now : datetime) (sess sess' : Session) (p' : Pessoa)
  : Prop :=
  exists base changes seq',
    sess' =
      persist_event now
        (mkSession (<[p_id p' := p']> (pessoa sess)) (pessoa_event sess) seq'
                   (pessoa_event_id_seq sess))
        p' base changes
    /\ pessoa_id_seq sess <= seq'
    /\ p_id p' <= seq'
    /\ str_changes changes
    /\ match pessoa sess !! p_id p' with
       | Some p =>
           p_version p' = p_version p + 1 /\ base = p_version p
           /\ agree (pessoa_to_dict p')
                    (apply_changes (pessoa_to_dict p) changes)
       | None => p_version p' = 1 /\ base = 0
       end.

(** The versions of the log: for every row, each version from 1 to the
    row's version is the [new_version] of exactly one event of the entity and
    no other version is; every event steps from [new_version - 1] and
    belongs to a row. *)
Definition versions_contiguous (sess : Session) : Prop :=
  (forall pid p,
     pessoa sess !! pid = Some p ->
     1 <= p_version p
     /\ forall v,
          length (filter (fun ev => ev_pessoa_id ev = pid
                                    /\ ev_new_version ev = v)
                         (pessoa_event sess))
          = if decide (1 <= v <= p_version p) then 1%nat else 0%nat)
  /\ (forall ev,
        ev ∈ pessoa_event sess ->
        ev_base_version ev = ev_new_version ev - 1
        /\ is_Some (pessoa sess !! ev_pessoa_id ev)).

(** ** Example histories *)

Definition t0 : datetime := DateTime "2024-01-01T10:00:00".
Definition t1 : datetime := DateTime "2024-01-01T11:00:00".
Definition t2 : datetime := DateTime "2024-01-01T12:00:00".
Definition t3 : datetime := DateTime "2024-01-01T13:00:00".

Definition only_version (v : Z) : PessoaPatch := mkPessoaPatch v None None None.
Definition only_nome (v : Z) (s : string) : PessoaPatch :=
  mkPessoaPatch v (Some s) None None.
Definition only_cpf (v : Z) (s : string) : PessoaPatch :=
  mkPessoaPatch v None (Some s) None.
Definition only_data_nascimento (v : Z) (d : date) : PessoaPatch :=
  mkPessoaPatch v None None (Some d).

(** One entity, created with nome A. *)
Definition sess_created : Session :=
  run empty_session t0
      (CreatePessoa (mkPessoaCreate "A" "000" (Date "1990-05-17"))).

Definition row_created : Pessoa :=
  mkPessoa 1 "A" "000" (Date "1990-05-17") 1 false (Some t0) (Some t0).

(** ... then renamed to B by an up-to-date client: version 2. *)
Definition sess_renamed : Session :=
  run sess_created t1 (PatchPessoa 1 (only_nome 1 "B")).

(** ... then patched by a client that still holds version 1. *)
Definition sess_replayed : Session :=
  run sess_renamed t2 (PatchPessoa 1 (only_cpf 1 "123")).

Definition row_renamed : Pessoa :=
  mkPessoa 1 "B" "000" (Date "1990-05-17") 2 false (Some t1) (Some t0).

Definition row_replayed : Pessoa :=
  mkPessoa 1 "B" "123" (Date "1990-05-17") 3 false (Some t2) (Some t0).

(** Another history that brings the entity to version 3 on the direct
    path. *)
Definition sess_at_3 : Session :=
  run (run sess_created t1 (PatchPessoa 1 (only_cpf 1 "111"))) t2
      (PatchPessoa 1 (only_data_nascimento 2 (Date "1991-06-18"))).

Definition row_at_3 : Pessoa :=
  mkPessoa 1 "A" "111" (Date "1991-06-18") 3 false (Some t2) (Some t0).

(** The created entity, soft-deleted. *)
Definition sess_deleted : Session :=
  run sess_created t1 (DeletePessoa 1 1).

(** More example data: a second entity beside the first, and requests that
    reuse the cpf of the first. *)
Definition same_cpf_payload : PessoaCreate :=
  mkPessoaCreate "C" "000" (Date "1985-02-03").

Definition other_payload : PessoaCreate :=
  mkPessoaCreate "D" "555" (Date "1970-12-31").

Definition sess_two : Session :=
  run sess_created t1 (CreatePessoa other_payload).

Definition row_other : Pessoa :=
  mkPessoa 2 "D" "555" (Date "1970-12-31") 1 false (Some t1) (Some t1).

Definition row_deleted : Pessoa :=
  mkPessoa 1 "A" "000" (Date "1990-05-17") 2 true (Some t1) (Some t0).

Definition event_created : PessoaEvent :=
  mkPessoaEvent 1 1 0 1
    (<["nome" := VStr "A"]>
     (<["cpf" := VStr "000"]>
      (<["data_nascimento" := VStr "1990-05-17"]>
       (<["deleted" := VBool false]> ∅))))
    (pessoa_to_dict row_created) t0.

Definition sess_two_deleted : Session :=
  run sess_two t2 (DeletePessoa 2 1).

Definition row_other_deleted : Pessoa :=
  mkPessoa 2 "D" "555" (Date "1970-12-31") 2 true (Some t2) (Some t1).

(** ** Listing *)

(** [order_by(Pessoa.id.asc())] on the rows of table pessoa, each with its
    primary key. *)
Fixpoint insert_by_id (kp : Z * Pessoa) (rows : list (Z * Pessoa))
  : list (Z * Pessoa) :=
  match rows with
  | [] => [kp]
  | kq :: rest =>
      if decide (kp.1 <= kq.1) then kp :: kq :: rest
      else kq :: insert_by_id kp rest
  end.

Definition order_by_id (rows : list (Z * Pessoa)) : list (Z * Pessoa) :=
  foldr insert_by_id [] rows.

(** [Pessoa.updated_at >= modified_since] on one row; the comparison of
    timestamps is the database's and is taken as a parameter [datetime_ge]. *)
Definition updated_since (datetime_ge : datetime -> datetime -> bool)
    (modified_since : datetime) (p : Pessoa) : bool :=
  match p_updated_at p with
  | Some t => datetime_ge t modified_since
  | None => false
  end.

Definition list_pessoas (datetime_ge : datetime -> datetime -> bool)
    (sess : Session) (modified_since : option datetime)
    (include_deleted : bool) : list Pessoa :=
  let q := map_to_list (pessoa sess) in
  let q :=
    if negb include_deleted
    then filter (fun kp => p_deleted kp.2 = false) q
    else q in
  let q :=
    match modified_since with
    | Some since =>
        filter (fun kp => updated_since datetime_ge since kp.2 = true) q
    | None => q
    end in
  (order_by_id q).*2.

(** ** What the log and the table look like in every history *)

(** The keys a delta may carry. *)
Definition delta_keys (changes : dict) : Prop :=
  forall k, is_Some (changes !! k) ->
    k = "nome" \/ k = "cpf" \/ k = "data_nascimento" \/ k = "deleted".

(** Every event carries a delta over the four fields and the snapshot of a
    row of its own entity at its own new version. *)
Definition log_schema (sess : Session) : Prop :=
  forall ev, ev ∈ pessoa_event sess ->
    delta_keys (ev_changes ev)
    /\ exists q, ev_state_after ev = pessoa_to_dict q
                 /\ p_id q = ev_pessoa_id ev
                 /\ p_version q = ev_new_version ev.

(** No two rows, deleted or not, hold one cpf. *)
Definition cpf_unique (sess : Session) : Prop :=
  forall k1 k2 p1 p2,
    pessoa sess !! k1 = Some p1 -> pessoa sess !! k2 = Some p2 ->
    p_cpf p1 = p_cpf p2 -> k1 = k2.

(** A write: the row [p'] went through the flush and one event was added. *)
Definition step_facts (now : datetime) (sess sess' : Session) (p' : Pessoa)
  : Prop :=
  exists base changes seq',
    sess' =
      persist_event now
        (mkSession (<[p_id p' := p']> (pessoa sess)) (pessoa_event sess) seq'
                   (pessoa_event_id_seq sess))
        p' base changes
    /\ cpf_unique_violation sess (p_id p') (p_cpf p') = false
    /\ delta_keys changes
    /\ p_updated_at p' = Some now
    /\ match pessoa sess !! p_id p' with
       | None => p_deleted p' = false
       | Some p =>
           p_deleted p = false /\ p_created_at p' = p_created_at p
           /\ p_version p' = p_version p + 1
       end.

(** The exceptions the handlers raise on purpose, and the one the unique
    constraint raises. *)
Definition expected_error (e : error) : Prop :=
  e = NotFound \/ e = InvalidVersion \/ e = Conflict \/ e = VersionAhead
  \/ e = Stale \/ e = IntegrityError.

(** ** apply_changes *)

Lemma apply_changes_union (s c : dict) : apply_changes s c = c ∪ s.
Proof.
  unfold apply_changes.
  induction c as [|k v c Hk Hfold IH] using map_first_key_ind.
  - rewrite map_fold_empty. by rewrite (left_id_L ∅ (∪)).
  - rewrite map_fold_insert_first_key by done.
    rewrite IH. by rewrite insert_union_l.
Qed.

Lemma lookup_apply_changes (s c : dict) (k : string) :
  apply_changes s c !! k =
  match c !! k with Some v => Some v | None => s !! k end.
Proof.
  rewrite apply_changes_union, lookup_union.
  destruct (c !! k), (s !! k); reflexivity.
Qed.

(** C9: applying the same changes mapping twice equals applying it once;
    after one application as after two, every key of the mapping holds the
    mapping's value and every key absent from the mapping holds the value it
    had in the state. *)
Theorem apply_changes_idempotent (s c : dict) :
  apply_changes (apply_changes s c) c = apply_changes s c
  /\ (forall k, apply_changes s c !! k =
                match c !! k with Some v => Some v | None => s !! k end)
  /\ (forall k, apply_changes (apply_changes s c) c !! k =
                match c !! k with Some v => Some v | None => s !! k end).
Proof.
  split; [|split].
  - apply map_eq. intros k. rewrite !lookup_apply_changes.
    destruct (c !! k); reflexivity.
  - intros k. apply lookup_apply_changes.
  - intros k. rewrite !lookup_apply_changes. destruct (c !! k); reflexivity.
Qed.

(** ** Rejections that come before any write *)

Lemma query_pessoa_live (sess : Session) (pid : Z) (p : Pessoa) :
  pessoa sess !! pid = Some p -> p_deleted p = false ->
  query_pessoa sess pid = Some p.
Proof. intros Hp Hd. unfold query_pessoa. by rewrite Hp, Hd. Qed.

Lemma query_pessoa_deleted (sess : Session) (pid : Z) (p : Pessoa) :
  pessoa sess !! pid = Some p -> p_deleted p = true ->
  query_pessoa sess pid = None.
Proof. intros Hp Hd. unfold query_pessoa. by rewrite Hp, Hd. Qed.

(** C8: a PATCH on an existing, non-deleted entity whose claimed version is
    zero or negative raises InvalidVersion (status 400) whatever fields the
    payload carries, and the tables stay as they were. *)
Theorem patch_invalid_version (now : datetime) (sess : Session) (pid : Z)
    (p : Pessoa) (payload : PessoaPatch) :
  pessoa sess !! pid = Some p ->
  p_deleted p = false ->
  patch_version payload <= 0 ->
  patch_pessoa now sess pid payload = Err InvalidVersion
  /\ status_code InvalidVersion = 400
  /\ run sess now (PatchPessoa pid payload) = sess.
Proof.
  intros Hp Hd Hv.
  assert (patch_pessoa now sess pid payload = Err InvalidVersion) as E.
  { unfold patch_pessoa. rewrite (query_pessoa_live _ _ _ Hp Hd).
    destruct (decide (patch_version payload <= 0)); [reflexivity | lia]. }
  split; [exact E | split; [reflexivity |]].
  unfold run. simpl. by rewrite E.
Qed.

Lemma patch_invalid_version_witness :
  patch_pessoa t1 sess_created 1 (mkPessoaPatch 0 (Some "B") (Some "9") None)
    = Err InvalidVersion
  /\ status_code InvalidVersion = 400
  /\ run sess_created t1
         (PatchPessoa 1 (mkPessoaPatch 0 (Some "B") (Some "9") None))
     = sess_created.
Proof.
  apply (patch_invalid_version t1 sess_created 1
           (mkPessoa 1 "A" "000" (Date "1990-05-17") 1 false (Some t0) (Some t0))).
  - vm_compute. reflexivity.
  - reflexivity.
  - simpl. lia.
Defined.

(** C10: on an entity whose row is soft-deleted, GET, PATCH and DELETE all
    raise NotFound, for every claimed version and payload, and neither
    table changes. *)
Theorem deleted_entity_not_found (sess : Session) (pid : Z) (p : Pessoa) :
  pessoa sess !! pid = Some p ->
  p_deleted p = true ->
  get_pessoa sess pid = Err NotFound
  /\ (forall now payload,
        patch_pessoa now sess pid payload = Err NotFound
        /\ run sess now (PatchPessoa pid payload) = sess)
  /\ (forall now version,
        delete_pessoa now sess pid version = Err NotFound
        /\ run sess now (DeletePessoa pid version) = sess).
Proof.
  intros Hp Hd. pose proof (query_pessoa_deleted _ _ _ Hp Hd) as Hq.
  split; [|split].
  - unfold get_pessoa. by rewrite Hq.
  - intros now payload.
    assert (patch_pessoa now sess pid payload = Err NotFound) as E
      by (unfold patch_pessoa; by rewrite Hq).
    split; [exact E|]. unfold run. simpl. by rewrite E.
  - intros now version.
    assert (delete_pessoa now sess pid version = Err NotFound) as E
      by (unfold delete_pessoa; by rewrite Hq).
    split; [exact E|]. unfold run. simpl. by rewrite E.
Qed.

Lemma deleted_entity_not_found_witness :
  get_pessoa sess_deleted 1 = Err NotFound
  /\ (forall now payload,
        patch_pessoa now sess_deleted 1 payload = Err NotFound
        /\ run sess_deleted now (PatchPessoa 1 payload) = sess_deleted)
  /\ (forall now version,
        delete_pessoa now sess_deleted 1 version = Err NotFound
        /\ run sess_deleted now (DeletePessoa 1 version) = sess_deleted).
Proof.
  apply (deleted_entity_not_found sess_deleted 1
           (mkPessoa 1 "A" "000" (Date "1990-05-17") 2 true (Some t1) (Some t0))).
  - vm_compute. reflexivity.
  - reflexivity.
Defined.

(** ** The changes a payload provides *)

Lemma payload_changes_nome (payload : PessoaPatch) :
  payload_changes payload !! "nome" = VStr <$> patch_nome payload.
Proof.
  unfold payload_changes.
  destruct (patch_nome payload), (patch_cpf payload),
    (patch_data_nascimento payload); vm_compute; reflexivity.
Qed.

Lemma payload_changes_cpf (payload : PessoaPatch) :
  payload_changes payload !! "cpf" = VStr <$> patch_cpf payload.
Proof.
  unfold payload_changes.
  destruct (patch_nome payload), (patch_cpf payload),
    (patch_data_nascimento payload); vm_compute; reflexivity.
Qed.

Lemma payload_changes_data_nascimento (payload : PessoaPatch) :
  payload_changes payload !! "data_nascimento" =
  (fun d => VStr (date_isoformat d)) <$> patch_data_nascimento payload.
Proof.
  unfold payload_changes.
  destruct (patch_nome payload), (patch_cpf payload),
    (patch_data_nascimento payload); vm_compute; reflexivity.
Qed.

Lemma payload_changes_other (payload : PessoaPatch) (k : string) :
  k <> "nome" -> k <> "cpf" -> k <> "data_nascimento" ->
  payload_changes payload !! k = None.
Proof.
  intros Hn Hc Hd. unfold payload_changes.
  destruct (patch_nome payload), (patch_cpf payload),
    (patch_data_nascimento payload);
    rewrite ?lookup_insert_ne by done; apply lookup_empty.
Qed.

Lemma payload_changes_empty (payload : PessoaPatch) :
  payload_changes payload = ∅ <->
  patch_nome payload = None /\ patch_cpf payload = None
  /\ patch_data_nascimento payload = None.
Proof.
  unfold payload_changes. split.
  - destruct (patch_nome payload), (patch_cpf payload),
      (patch_data_nascimento payload); intros E; try done;
      by apply insert_non_empty in E.
  - intros (-> & -> & ->). reflexivity.
Qed.

Lemma payload_changes_str (payload : PessoaPatch) :
  str_changes (payload_changes payload).
Proof.
  unfold str_changes, str_or_absent.
  rewrite payload_changes_nome, payload_changes_cpf,
    payload_changes_data_nascimento.
  by destruct (patch_nome payload), (patch_cpf payload),
    (patch_data_nascimento payload).
Qed.

(** [collect_provided_changes] either raises on the cpf check or returns
    the fields of the payload. *)
Lemma collect_provided_changes_inv (sess : Session) (pid : Z)
    (payload : PessoaPatch) (pc : dict) :
  collect_provided_changes sess pid payload = Ok pc ->
  pc = payload_changes payload.
Proof.
  unfold collect_provided_changes, payload_changes.
  destruct (patch_cpf payload) as [c|]; simpl.
  - destruct (query_cpf_other sess c pid) as [[q|]|e]; simpl; congruence.
  - congruence.
Qed.

Lemma collect_provided_changes_ok (sess : Session) (pid : Z)
    (payload : PessoaPatch) :
  (forall c, patch_cpf payload = Some c ->
             query_cpf_other sess c pid = Ok None) ->
  collect_provided_changes sess pid payload = Ok (payload_changes payload).
Proof.
  intros Hq. unfold collect_provided_changes, payload_changes.
  destruct (patch_cpf payload) as [c|]; simpl; [|reflexivity].
  rewrite (Hq c eq_refl). reflexivity.
Qed.

Lemma collect_provided_changes_no_cpf (sess : Session) (pid : Z)
    (payload : PessoaPatch) :
  patch_cpf payload = None ->
  collect_provided_changes sess pid payload = Ok (payload_changes payload).
Proof. intros H. apply collect_provided_changes_ok. intros c. by rewrite H. Qed.

(** ** A claimed version ahead of the row *)

(** C3, as the code has it: on an existing, non-deleted entity, a PATCH
    whose claimed version is greater than the current one raises
    VersionAhead (status 409) when the payload carries at least one field
    and a provided cpf passes the uniqueness check; when the payload carries
    no field the handler returns the current row, unchanged, without an
    error. *)
Theorem patch_version_ahead (now : datetime) (sess : Session) (pid : Z)
    (p : Pessoa) (payload : PessoaPatch) :
  pessoa sess !! pid = Some p ->
  p_deleted p = false ->
  1 <= p_version p ->
  patch_version payload > p_version p ->
  (payload_changes payload <> ∅ ->
   (forall c, patch_cpf payload = Some c ->
              query_cpf_other sess c pid = Ok None) ->
   patch_pessoa now sess pid payload = Err VersionAhead
   /\ status_code VersionAhead = 409
   /\ run sess now (PatchPessoa pid payload) = sess)
  /\ (payload_changes payload = ∅ ->
      patch_pessoa now sess pid payload = Ok (sess, p)).
Proof.
  intros Hp Hd Hcur Hv.
  assert (forall pc, collect_provided_changes sess pid payload = Ok pc ->
            patch_pessoa now sess pid payload =
            if decide (pc = ∅) then Ok (sess, p) else Err VersionAhead) as Hgen.
  { intros pc Hpc. unfold patch_pessoa.
    rewrite (query_pessoa_live _ _ _ Hp Hd).
    destruct (decide (patch_version payload <= 0)); [lia|].
    rewrite Hpc. simpl.
    destruct (decide (pc = ∅)); [reflexivity|].
    destruct (decide (patch_version payload = p_version p)); [lia|].
    destruct (decide (patch_version payload > p_version p)); [reflexivity|lia]. }
  split.
  - intros Hne Hq.
    pose proof (Hgen _ (collect_provided_changes_ok _ _ _ Hq)) as E.
    destruct (decide (payload_changes payload = ∅)); [done|].
    split; [exact E | split; [reflexivity|]].
    unfold run. simpl. by rewrite E.
  - intros He. apply payload_changes_empty in He as (Hn & Hc & Hdn).
    pose proof (Hgen _ (collect_provided_changes_no_cpf _ _ _ Hc)) as E.
    rewrite E. apply decide_True. apply payload_changes_empty. done.
Qed.

Lemma patch_version_ahead_witness :
  (payload_changes (only_nome 5 "B") <> ∅ ->
   (forall c, patch_cpf (only_nome 5 "B") = Some c ->
              query_cpf_other sess_created c 1 = Ok None) ->
   patch_pessoa t1 sess_created 1 (only_nome 5 "B") = Err VersionAhead
   /\ status_code VersionAhead = 409
   /\ run sess_created t1 (PatchPessoa 1 (only_nome 5 "B")) = sess_created)
  /\ (payload_changes (only_nome 5 "B") = ∅ ->
      patch_pessoa t1 sess_created 1 (only_nome 5 "B")
      = Ok (sess_created, row_created)).
Proof.
  apply (patch_version_ahead t1 sess_created 1 row_created (only_nome 5 "B")).
  - vm_compute. reflexivity.
  - reflexivity.
  - simpl. lia.
  - simpl. lia.
Defined.

(** C3 as stated fails: the entity is at version 1, the request claims
    version 5 and carries no field; the handler answers with the current
    row instead of raising VersionAhead. *)
Lemma patch_version_ahead_empty_counterexample :
  pessoa sess_created !! 1 = Some row_created
  /\ p_deleted row_created = false
  /\ patch_version (only_version 5) > p_version row_created
  /\ patch_pessoa t1 sess_created 1 (only_version 5)
     = Ok (sess_created, row_created)
  /\ patch_pessoa t1 sess_created 1 (only_version 5) <> Err VersionAhead.
Proof.
  assert (patch_pessoa t1 sess_created 1 (only_version 5)
          = Ok (sess_created, row_created)) as E by (vm_compute; reflexivity).
  split; [vm_compute; reflexivity|].
  split; [reflexivity|].
  split; [simpl; lia|].
  split; [exact E|]. rewrite E. discriminate.
Qed.

(** ** DELETE with a claimed version ahead of the row *)

(** C4, the code at the failing input: the entity is at version 1 and not
    deleted, the DELETE claims version 5; the handler does not reject it,
    it commits the soft delete at version 2 and appends the event 1 -> 2. *)
Theorem delete_version_ahead_accepted :
  pessoa sess_created !! 1 = Some row_created
  /\ p_version row_created = 1
  /\ p_deleted row_created = false
  /\ exists sess' p' ev,
       delete_pessoa t1 sess_created 1 5 = Ok (sess', p')
       /\ pessoa sess' !! 1 = Some p'
       /\ p_deleted p' = true
       /\ p_version p' = 2
       /\ pessoa_event sess' = pessoa_event sess_created ++ [ev]
       /\ ev_base_version ev = 1
       /\ ev_new_version ev = 2.
Proof.
  split; [vm_compute; reflexivity|].
  split; [reflexivity|]. split; [reflexivity|].
  destruct (delete_pessoa t1 sess_created 1 5) as [[sess' p']|e] eqn:E;
    vm_compute in E; [|discriminate].
  injection E as <- <-.
  eexists _, _, _. split; [reflexivity|].
  split; [vm_compute; reflexivity|].
  split; [reflexivity|]. split; [reflexivity|].
  split; [vm_compute; reflexivity|]. split; reflexivity.
Qed.

(** ** The direct path *)

Lemma filter_none {A : Type} (P : A -> Prop) `{!forall x, Decision (P x)}
    (l : list A) :
  (forall x, x ∈ l -> ~ P x) -> filter P l = [].
Proof.
  induction l as [|x l IH]; intros Hall; [reflexivity|].
  rewrite filter_cons_False by (apply Hall; left).
  apply IH. intros y Hy. apply Hall. by right.
Qed.

Lemma cpf_free_no_violation (sess : Session) (pid : Z) (c : string) :
  cpf_free sess pid c -> cpf_unique_violation sess pid c = false.
Proof.
  intros Hfree. unfold cpf_unique_violation. apply bool_decide_eq_false.
  rewrite Exists_exists. intros ([k q] & Hin & Hne & Hc).
  apply elem_of_map_to_list in Hin. exact (Hfree k q Hin Hne Hc).
Qed.

Lemma cpf_free_query_other (sess : Session) (pid : Z) (c : string) :
  cpf_free sess pid c -> query_cpf_other sess c pid = Ok None.
Proof.
  intros Hfree. unfold query_cpf_other.
  rewrite filter_none; [reflexivity|].
  intros [k q] Hin (Hc & Hne & _).
  apply elem_of_map_to_list in Hin. exact (Hfree k q Hin Hne Hc).
Qed.

(** C7, as the code has it: a PATCH with the claimed version equal to the
    current one and at least one field provided commits on the direct path
    when the cpf the row will hold, the provided one or else its current
    one, is held by no other row, deleted or not.  Then the row moves to
    version current + 1, every provided field takes the provided value and
    the others keep theirs, and exactly one event is appended, with
    base_version = current, new_version = current + 1 and changes equal to
    the provided changes. *)
Theorem patch_direct_path (now : datetime) (sess : Session) (pid : Z)
    (p : Pessoa) (payload : PessoaPatch) :
  pessoa sess !! pid = Some p ->
  p_id p = pid ->
  p_deleted p = false ->
  0 < p_version p ->
  patch_version payload = p_version p ->
  payload_changes payload <> ∅ ->
  cpf_free sess pid (default (p_cpf p) (patch_cpf payload)) ->
  exists sess' p' ev,
    patch_pessoa now sess pid payload = Ok (sess', p')
    /\ pessoa sess' = <[pid := p']> (pessoa sess)
    /\ p_version p' = p_version p + 1
    /\ p_nome p' = default (p_nome p) (patch_nome payload)
    /\ p_cpf p' = default (p_cpf p) (patch_cpf payload)
    /\ p_data_nascimento p' =
       default (p_data_nascimento p) (patch_data_nascimento payload)
    /\ p_id p' = pid
    /\ p_deleted p' = false
    /\ pessoa_event sess' = pessoa_event sess ++ [ev]
    /\ ev_pessoa_id ev = pid
    /\ ev_base_version ev = p_version p
    /\ ev_new_version ev = p_version p + 1
    /\ ev_changes ev = payload_changes payload
    /\ ev_state_after ev = pessoa_to_dict p'.
Proof.
  intros Hp Hid Hd Hpos Hv Hne Hfree.
  unfold patch_pessoa. rewrite (query_pessoa_live _ _ _ Hp Hd).
  destruct (decide (patch_version payload <= 0)); [lia|].
  rewrite collect_provided_changes_ok; cycle 1.
  { intros c Hc. apply cpf_free_query_other. by rewrite Hc in Hfree. }
  simpl.
  destruct (decide (payload_changes payload = ∅)); [done|].
  destruct (decide (patch_version payload = p_version p)); [|done].
  unfold get_str.
  rewrite payload_changes_nome, payload_changes_cpf,
    payload_changes_data_nascimento.
  destruct payload as [cv [nm|] [c|] [[d]|]]; simpl in *.
  all: repeat (destruct (decide (is_Some _)) as [Hs|Hs];
               [| try (exfalso; apply Hs; eauto)];
               try (by apply is_Some_None in Hs); clear Hs; simpl).
  all: try done.
  all: unfold flush_update; simpl; rewrite Hid;
    rewrite (cpf_free_no_violation _ _ _ Hfree); simpl;
    eexists _, _, _; repeat split; reflexivity || done.
Qed.

Lemma patch_direct_path_witness :
  exists sess' p' ev,
    patch_pessoa t3 sess_at_3 1 (only_nome 3 "B") = Ok (sess', p')
    /\ pessoa sess' = <[1 := p']> (pessoa sess_at_3)
    /\ p_version p' = 3 + 1
    /\ p_nome p' = "B"
    /\ p_cpf p' = "111"
    /\ p_data_nascimento p' = Date "1991-06-18"
    /\ p_id p' = 1
    /\ p_deleted p' = false
    /\ pessoa_event sess' = pessoa_event sess_at_3 ++ [ev]
    /\ ev_pessoa_id ev = 1
    /\ ev_base_version ev = 3
    /\ ev_new_version ev = 3 + 1
    /\ ev_changes ev = {["nome" := VStr "B"]}
    /\ ev_state_after ev = pessoa_to_dict p'.
Proof.
  apply (patch_direct_path t3 sess_at_3 1 row_at_3 (only_nome 3 "B")).
  - vm_compute. reflexivity.
  - reflexivity.
  - reflexivity.
  - simpl. lia.
  - reflexivity.
  - apply insert_non_empty.
  - intros k q Hk Hne. simpl.
    change (pessoa sess_at_3) with (<[1 := row_at_3]> (∅ : gmap Z Pessoa)) in Hk.
    rewrite lookup_insert_ne in Hk by done. by rewrite lookup_empty in Hk.
Defined.

(** C7 as stated fails: entity 1 is at version 1 beside entity 2, whose cpf
    is 555; a PATCH of entity 1 that claims version 1 and provides cpf 555
    is stopped by the handler's cpf check with Conflict, so there is no
    version 2 and no event.  With entity 2 soft-deleted the same request
    passes that check and fails on the unique constraint. *)
Lemma patch_direct_path_counterexample :
  pessoa sess_two !! 1 = Some row_created
  /\ p_deleted row_created = false
  /\ patch_version (only_cpf 1 "555") = p_version row_created
  /\ payload_changes (only_cpf 1 "555") <> ∅
  /\ patch_pessoa t2 sess_two 1 (only_cpf 1 "555") = Err Conflict
  /\ run sess_two t2 (PatchPessoa 1 (only_cpf 1 "555")) = sess_two
  /\ (forall sess' p',
        patch_pessoa t2 sess_two 1 (only_cpf 1 "555") <> Ok (sess', p'))
  /\ pessoa sess_two_deleted !! 1 = Some row_created
  /\ patch_pessoa t3 sess_two_deleted 1 (only_cpf 1 "555")
     = Err IntegrityError.
Proof.
  assert (patch_pessoa t2 sess_two 1 (only_cpf 1 "555") = Err Conflict) as E
    by (vm_compute; reflexivity).
  split; [vm_compute; reflexivity|].
  split; [reflexivity|].
  split; [reflexivity|].
  split; [apply insert_non_empty|].
  split; [exact E|].
  split; [unfold run; simpl; by rewrite E|].
  split; [intros sess' p'; rewrite E; discriminate|].
  split; vm_compute; reflexivity.
Qed.

(** ** The replay path *)

Lemma replay_forward_unfold (sess : Session) (pid from_v to_v : Z) (s : dict) :
  from_v < to_v ->
  replay_forward sess pid from_v to_v s =
  foldl (fun s ev => apply_changes s (ev_changes ev)) s
        (query_events_between sess pid from_v to_v).
Proof.
  intros Hlt. unfold replay_forward.
  destruct (decide (to_v <= from_v)); [lia | reflexivity].
Qed.

(** Last writer wins, per key: a key no replayed event touches keeps the
    value of the start state. *)
Lemma foldl_apply_changes_untouched (evs : list PessoaEvent) (s : dict)
    (k : string) :
  (forall ev, ev ∈ evs -> ev_changes ev !! k = None) ->
  foldl (fun s ev => apply_changes s (ev_changes ev)) s evs !! k = s !! k.
Proof.
  revert s. induction evs as [|ev evs IH]; intros s Hall; [reflexivity|].
  simpl. rewrite IH by (intros ev' Hin; apply Hall; by right).
  rewrite lookup_apply_changes. by rewrite (Hall ev) by left.
Qed.

(** ... and a key ends with the value of the last event that touches it. *)
Lemma foldl_apply_changes_last_writer (l1 l2 : list PessoaEvent)
    (ev : PessoaEvent) (s : dict) (k : string) (v : value) :
  ev_changes ev !! k = Some v ->
  (forall ev', ev' ∈ l2 -> ev_changes ev' !! k = None) ->
  foldl (fun s ev => apply_changes s (ev_changes ev)) s (l1 ++ ev :: l2) !! k
  = Some v.
Proof.
  intros Hv Hl2. rewrite foldl_app. simpl.
  rewrite foldl_apply_changes_untouched by exact Hl2.
  rewrite lookup_apply_changes. by rewrite Hv.
Qed.

Lemma get_str_inv (d : dict) (k s : string) :
  get_str d k = Ok s -> d !! k = Some (VStr s).
Proof.
  unfold get_str. destruct (d !! k) as [[]|]; intros E; by inversion E.
Qed.

(** What a successful PATCH of a stale client did. *)
Lemma patch_replay_inv (now : datetime) (sess sess' : Session) (pid : Z)
    (p p' : Pessoa) (payload : PessoaPatch) :
  pessoa sess !! pid = Some p ->
  p_deleted p = false ->
  patch_version payload < p_version p ->
  payload_changes payload <> ∅ ->
  patch_pessoa now sess pid payload = Ok (sess', p') ->
  exists base nome cpf d,
    snapshot_at_version sess pid (patch_version payload) = Ok base
    /\ (let final_state :=
          replay_forward sess pid (patch_version payload) (p_version p)
            (apply_changes base (payload_changes payload)) in
        final_state !! "nome" = Some (VStr nome)
        /\ final_state !! "cpf" = Some (VStr cpf)
        /\ final_state !! "data_nascimento" = Some (VStr d))
    /\ p' = mkPessoa (p_id p) nome cpf (Date d) (p_version p + 1) (p_deleted p)
                     (Some now) (p_created_at p)
    /\ sess' =
       persist_event now
         (mkSession (<[p_id p := p']> (pessoa sess)) (pessoa_event sess)
                    (pessoa_id_seq sess) (pessoa_event_id_seq sess))
         p' (p_version p)
         (<["nome" := VStr nome]>
          (<["cpf" := VStr cpf]>
           (<["data_nascimento" := VStr d]> ∅))).
Proof.
  intros Hp Hd Hlt Hne. unfold patch_pessoa.
  rewrite (query_pessoa_live _ _ _ Hp Hd).
  destruct (decide (patch_version payload <= 0)); [discriminate|].
  destruct (collect_provided_changes sess pid payload) as [pc|e] eqn:Hpc;
    [|discriminate].
  apply collect_provided_changes_inv in Hpc as ->. simpl.
  destruct (decide (payload_changes payload = ∅)); [done|].
  destruct (decide (patch_version payload = p_version p)); [lia|].
  destruct (decide (patch_version payload > p_version p)); [lia|].
  destruct (snapshot_at_version sess pid (patch_version payload))
    as [base|e] eqn:Hbase; [|discriminate].
  simpl.
  destruct (get_str _ "nome") as [nome|e] eqn:Hnome; [|discriminate].
  simpl.
  destruct (get_str _ "cpf") as [cpf|e] eqn:Hcpf; [|discriminate].
  simpl.
  destruct (get_str _ "data_nascimento") as [d|e] eqn:Hdn; [|discriminate].
  simpl. unfold flush_update. simpl.
  destruct (cpf_unique_violation sess (p_id p) cpf); [discriminate|].
  simpl. intros E. injection E as <- <-.
  exists base, nome, cpf, d.
  apply get_str_inv in Hnome, Hcpf, Hdn. done.
Qed.

(** C1, as the code has it: the event a successful replay-path PATCH
    appends has base_version = current and new_version = current + 1, and
    its changes mapping has exactly the three keys nome, cpf and
    data_nascimento, each with the value of the reconciled row that was
    committed, whichever fields the client provided. *)
Theorem patch_replay_event (now : datetime) (sess sess' : Session) (pid : Z)
    (p p' : Pessoa) (payload : PessoaPatch) :
  pessoa sess !! pid = Some p ->
  p_deleted p = false ->
  patch_version payload < p_version p ->
  payload_changes payload <> ∅ ->
  patch_pessoa now sess pid payload = Ok (sess', p') ->
  exists ev,
    pessoa_event sess' = pessoa_event sess ++ [ev]
    /\ ev_base_version ev = p_version p
    /\ ev_new_version ev = p_version p + 1
    /\ ev_changes ev =
       <["nome" := VStr (p_nome p')]>
       (<["cpf" := VStr (p_cpf p')]>
        (<["data_nascimento" := VStr (date_isoformat (p_data_nascimento p'))]>
         ∅))
    /\ dom (ev_changes ev)
       = ({["nome"; "cpf"; "data_nascimento"]} : gset string).
Proof.
  intros Hp Hd Hlt Hne Hok.
  destruct (patch_replay_inv _ _ _ _ _ _ _ Hp Hd Hlt Hne Hok)
    as (base & nome & cpf & d & _ & _ & -> & ->).
  eexists. split; [reflexivity|]. simpl.
  repeat split; reflexivity.
Qed.

Lemma patch_replay_event_witness :
  exists ev,
    pessoa_event sess_replayed = pessoa_event sess_renamed ++ [ev]
    /\ ev_base_version ev = 2
    /\ ev_new_version ev = 2 + 1
    /\ ev_changes ev =
       <["nome" := VStr "B"]>
       (<["cpf" := VStr "123"]>
        (<["data_nascimento" := VStr "1990-05-17"]> ∅))
    /\ dom (ev_changes ev)
       = ({["nome"; "cpf"; "data_nascimento"]} : gset string).
Proof.
  apply (patch_replay_event t2 sess_renamed sess_replayed 1 row_renamed
           row_replayed (only_cpf 1 "123")).
  - vm_compute. reflexivity.
  - reflexivity.
  - simpl. lia.
  - apply insert_non_empty.
  - vm_compute. reflexivity.
Defined.

(** C1 as stated fails: the entity is renamed to B at version 2, a client
    still at version 1 patches only cpf; the event appended records nome
    and data_nascimento as well, which the client never provided. *)
Lemma patch_replay_event_counterexample :
  exists ev,
    patch_pessoa t2 sess_renamed 1 (only_cpf 1 "123")
      = Ok (sess_replayed, row_replayed)
    /\ patch_version (only_cpf 1 "123") < p_version row_renamed
    /\ pessoa sess_renamed !! 1 = Some row_renamed
    /\ pessoa_event sess_replayed = pessoa_event sess_renamed ++ [ev]
    /\ payload_changes (only_cpf 1 "123") = {["cpf" := VStr "123"]}
    /\ payload_changes (only_cpf 1 "123") !! "nome" = None
    /\ ev_changes ev !! "nome" = Some (VStr "B")
    /\ ev_changes ev <> payload_changes (only_cpf 1 "123").
Proof.
  eexists. split; [vm_compute; reflexivity|].
  split; [simpl; lia|].
  split; [vm_compute; reflexivity|].
  split; [vm_compute; reflexivity|].
  split; [reflexivity|].
  split; [vm_compute; reflexivity|].
  split; [vm_compute; reflexivity|].
  intros E. apply (f_equal (fun m : dict => m !! "nome")) in E.
  vm_compute in E. discriminate.
Qed.

(** ** Snapshots and the agreement of states *)

Lemma persist_event_state_after (now : datetime) (sess : Session) (p : Pessoa)
    (base_version : Z) (changes : dict) :
  exists ev,
    pessoa_event (persist_event now sess p base_version changes)
      = pessoa_event sess ++ [ev]
    /\ ev_pessoa_id ev = p_id p
    /\ ev_base_version ev = base_version
    /\ ev_new_version ev = p_version p
    /\ ev_changes ev = changes
    /\ ev_state_after ev = pessoa_to_dict p.
Proof. eexists. repeat split; reflexivity. Qed.

Lemma pessoa_to_dict_lookup (p : Pessoa) (k : string) :
  pessoa_to_dict p !! k =
  if decide (k = "id") then Some (VInt (p_id p))
  else if decide (k = "nome") then Some (VStr (p_nome p))
  else if decide (k = "cpf") then Some (VStr (p_cpf p))
  else if decide (k = "data_nascimento")
       then Some (VStr (date_isoformat (p_data_nascimento p)))
  else if decide (k = "version") then Some (VInt (p_version p))
  else if decide (k = "deleted") then Some (VBool (p_deleted p))
  else if decide (k = "updated_at")
       then Some (match p_updated_at p with
                  | Some t => VStr (datetime_isoformat t)
                  | None => VNone
                  end)
  else None.
Proof.
  unfold pessoa_to_dict.
  repeat (destruct (decide (k = _)) as [->|?];
          [by rewrite ?lookup_insert_ne, lookup_insert_eq by done|]).
  by rewrite !lookup_insert_ne, lookup_empty by done.
Qed.

Lemma agree_refl (s : dict) : agree s s.
Proof. by intros k _ _. Qed.

Lemma agree_sym (s1 s2 : dict) : agree s1 s2 -> agree s2 s1.
Proof. intros H k Hv Hu. symmetry. by apply H. Qed.

Lemma agree_trans (s1 s2 s3 : dict) : agree s1 s2 -> agree s2 s3 -> agree s1 s3.
Proof. intros H1 H2 k Hv Hu. rewrite H1 by done. by apply H2. Qed.

Lemma agree_apply_changes (s1 s2 c : dict) :
  agree s1 s2 -> agree (apply_changes s1 c) (apply_changes s2 c).
Proof.
  intros H k Hv Hu. rewrite !lookup_apply_changes.
  destruct (c !! k); [reflexivity | by apply H].
Qed.

(** ** Chains of events *)

Lemma last_state_snoc (prev : option dict) (evs : list PessoaEvent)
    (ev : PessoaEvent) :
  last_state prev (evs ++ [ev]) = Some (ev_state_after ev).
Proof.
  revert prev. induction evs as [|e evs IH]; intros prev; [reflexivity|].
  simpl. apply IH.
Qed.

Lemma log_chain_snoc (pid n : Z) (prev : option dict)
    (evs : list PessoaEvent) (ev : PessoaEvent) :
  log_chain pid n prev evs ->
  ev_pessoa_id ev = pid ->
  ev_base_version ev = n + Z.of_nat (length evs) ->
  ev_new_version ev = n + Z.of_nat (length evs) + 1 ->
  match last_state prev evs with
  | Some s => agree (ev_state_after ev) (apply_changes s (ev_changes ev))
  | None => True
  end ->
  log_chain pid n prev (evs ++ [ev]).
Proof.
  revert n prev. induction evs as [|e evs IH]; intros n prev Hc Hpid Hb Hn Ha.
  - simpl in *. repeat split; try done; lia.
  - simpl in *. destruct Hc as (? & ? & ? & ? & Hc).
    repeat split; try done.
    apply IH; try done; lia.
Qed.

Lemma log_chain_versions (pid n : Z) (prev : option dict)
    (evs : list PessoaEvent) (ev : PessoaEvent) :
  log_chain pid n prev evs -> ev ∈ evs ->
  ev_pessoa_id ev = pid
  /\ ev_base_version ev = ev_new_version ev - 1
  /\ n < ev_new_version ev <= n + Z.of_nat (length evs).
Proof.
  revert n prev. induction evs as [|e evs IH]; intros n prev Hc Hin.
  - by apply elem_of_nil in Hin.
  - simpl in Hc. destruct Hc as (? & ? & ? & _ & Hc).
    apply elem_of_cons in Hin as [->|Hin].
    + simpl. repeat split; try done; lia.
    + destruct (IH _ _ Hc Hin) as (? & ? & ?). simpl.
      repeat split; try done; lia.
Qed.

Lemma filter_all {A : Type} (P : A -> Prop) `{!forall x, Decision (P x)}
    (l : list A) :
  (forall x, x ∈ l -> P x) -> filter P l = l.
Proof.
  induction l as [|x l IH]; intros Hall; [reflexivity|].
  rewrite filter_cons_True by (apply Hall; left).
  f_equal. apply IH. intros y Hy. apply Hall. by right.
Qed.

(** A chain is already in the order of its versions. *)
Lemma order_by_new_version_chain (pid n : Z) (prev : option dict)
    (evs : list PessoaEvent) :
  log_chain pid n prev evs -> order_by_new_version evs = evs.
Proof.
  revert n prev. induction evs as [|e evs IH]; intros n prev Hc; [reflexivity|].
  simpl in Hc. destruct Hc as (_ & _ & Hn & _ & Hc).
  unfold order_by_new_version in *. simpl. rewrite (IH _ _ Hc).
  destruct evs as [|e' evs]; [reflexivity|].
  simpl. simpl in Hc. destruct Hc as (_ & _ & Hn' & _).
  destruct (decide (ev_new_version e <= ev_new_version e')); [reflexivity|lia].
Qed.

(** Each version of a chain is there exactly once. *)
Lemma log_chain_count (pid n v : Z) (prev : option dict)
    (evs : list PessoaEvent) :
  log_chain pid n prev evs ->
  length (filter (fun ev => ev_new_version ev = v) evs) =
  if decide (n < v <= n + Z.of_nat (length evs)) then 1%nat else 0%nat.
Proof.
  revert n prev. induction evs as [|e evs IH]; intros n prev Hc.
  - simpl. destruct (decide _); [lia | reflexivity].
  - simpl in Hc. destruct Hc as (_ & _ & Hn & _ & Hc).
    rewrite filter_cons. specialize (IH _ _ Hc).
    destruct (decide (ev_new_version e = v)) as [Hv|Hv]; simpl.
    + rewrite IH. repeat destruct (decide _); lia.
    + rewrite IH. repeat destruct (decide _); lia.
Qed.

(** Replaying a chain from a state that agrees with the one before the
    chain ends in a state that agrees with its last snapshot. *)
Lemma replay_chain (pid n : Z) (s0 s : dict) (evs : list PessoaEvent) :
  log_chain pid n (Some s0) evs ->
  agree s s0 ->
  exists c,
    last_state (Some s0) evs = Some c
    /\ agree (foldl (fun s ev => apply_changes s (ev_changes ev)) s evs) c.
Proof.
  revert n s0 s. induction evs as [|e evs IH]; intros n s0 s Hc Ha.
  - exists s0. by split.
  - simpl in Hc. destruct Hc as (_ & _ & _ & He & Hc). simpl.
    apply (IH _ _ _ Hc).
    eapply agree_trans; [by apply agree_apply_changes|]. by apply agree_sym.
Qed.

Lemma filter_and {A : Type} (P Q : A -> Prop) `{!forall x, Decision (P x)}
    `{!forall x, Decision (Q x)} (l : list A) :
  filter (fun x => Q x /\ P x) l = filter P (filter Q l).
Proof.
  rewrite list_filter_filter. apply list_filter_iff. intros x. tauto.
Qed.

(** The snapshot stored for version [v] of a chain, replayed through the
    rest of the chain, agrees with the last snapshot. *)
Lemma chain_snapshot_replay (pid n hi v : Z) (prev : option dict)
    (evs : list PessoaEvent) :
  log_chain pid n prev evs ->
  n < v <= n + Z.of_nat (length evs) ->
  n + Z.of_nat (length evs) <= hi ->
  exists ev c,
    filter (fun e => ev_new_version e = v) evs = [ev]
    /\ last_state prev evs = Some c
    /\ agree (foldl (fun s e => apply_changes s (ev_changes e))
                    (ev_state_after ev)
                    (order_by_new_version
                       (filter (fun e => ev_new_version e > v
                                         /\ ev_new_version e <= hi) evs)))
             c
    /\ (v = n + Z.of_nat (length evs) -> c = ev_state_after ev).
Proof.
  revert n prev. induction evs as [|e evs IH]; intros n prev Hc Hv Hhi.
  - simpl in Hv. lia.
  - pose proof Hc as Hc0. simpl in Hc.
    destruct Hc as (_ & _ & Hn & _ & Hc).
    rewrite length_cons in Hv, Hhi.
    destruct (decide (v = n + 1)) as [->|Hne].
    + destruct (replay_chain _ _ _ _ _ Hc (agree_refl (ev_state_after e)))
        as (c & Hlast & Hagree).
      exists e, c.
      rewrite filter_cons_True by done.
      rewrite (filter_none (fun e0 => ev_new_version e0 = n + 1) evs); cycle 1.
      { intros x Hx. pose proof (log_chain_versions _ _ _ _ _ Hc Hx). lia. }
      rewrite filter_cons_False by lia.
      rewrite (filter_all _ evs); cycle 1.
      { intros x Hx. pose proof (log_chain_versions _ _ _ _ _ Hc Hx). lia. }
      rewrite (order_by_new_version_chain _ _ _ _ Hc).
      repeat split; try done.
      intros Hlen. destruct evs; [simpl in Hlast; congruence|].
      rewrite !length_cons in Hlen. lia.
    + destruct (IH (n + 1) (Some (ev_state_after e)) Hc) as
        (ev & c & Hf & Hlast & Hagree & Hend); [lia | lia |].
      exists ev, c.
      rewrite filter_cons_False by lia.
      rewrite filter_cons_False by lia.
      repeat split; try done.
      intros Hlen. rewrite length_cons in Hlen. apply Hend. lia.
Qed.

(** ** Every history keeps the session well formed *)

Lemma session_wf_empty : session_wf empty_session.
Proof.
  constructor.
  - intros k p Hk. cbn in Hk. by rewrite lookup_empty in Hk.
  - intros ev Hev. by apply elem_of_nil in Hev.
  - intros k p Hk. cbn in Hk. by rewrite lookup_empty in Hk.
  - intros ev Hev. by apply elem_of_nil in Hev.
Qed.

(** One committed write: the row [p'] is stored under its id and one event
    is appended for it. *)
Lemma session_wf_commit (now : datetime) (sess : Session) (p' : Pessoa)
    (base : Z) (changes : dict) (seq' : Z) :
  session_wf sess ->
  pessoa_id_seq sess <= seq' ->
  p_id p' <= seq' ->
  str_changes changes ->
  match pessoa sess !! p_id p' with
  | Some p =>
      p_version p' = p_version p + 1 /\ base = p_version p
      /\ agree (pessoa_to_dict p') (apply_changes (pessoa_to_dict p) changes)
  | None => p_version p' = 1 /\ base = 0
  end ->
  session_wf
    (persist_event now
       (mkSession (<[p_id p' := p']> (pessoa sess)) (pessoa_event sess) seq'
                  (pessoa_event_id_seq sess))
       p' base changes).
Proof.
  intros [Hkey Hfk Hlog Hstr] Hseq Hid Hty Hold.
  match goal with |- session_wf (persist_event _ ?s _ _ _) => set (sess0 := s) end.
  destruct (persist_event_state_after now sess0 p' base changes)
    as (ev & Hev & Hpid & Hb & Hn & Hch & Hsa).
  constructor.
  - intros k p. change (pessoa (persist_event now sess0 p' base changes))
      with (<[p_id p' := p']> (pessoa sess)).
    change (pessoa_id_seq (persist_event now sess0 p' base changes)) with seq'.
    rewrite lookup_insert. destruct (decide (p_id p' = k)) as [<-|Hne].
    + intros [= <-]. split; [reflexivity | lia].
    + intros Hk. destruct (Hkey _ _ Hk). split; [done | lia].
  - intros e. rewrite Hev.
    change (pessoa (persist_event now sess0 p' base changes))
      with (<[p_id p' := p']> (pessoa sess)).
    rewrite elem_of_app, list_elem_of_singleton. intros [He| ->].
    + rewrite lookup_insert. destruct (decide _); [by eexists|]. by apply Hfk.
    + rewrite Hpid, lookup_insert_eq. by eexists.
  - intros k p. unfold events_of. rewrite Hev.
    change (pessoa (persist_event now sess0 p' base changes))
      with (<[p_id p' := p']> (pessoa sess)).
    change (pessoa_event sess0) with (pessoa_event sess).
    rewrite filter_app. fold (events_of sess k).
    rewrite lookup_insert. destruct (decide (p_id p' = k)) as [<-|Hne].
    + intros [= <-].
      rewrite filter_cons_True, filter_nil by done.
      rewrite last_state_snoc, length_app, Hsa. simpl.
      destruct (pessoa sess !! p_id p') as [p|] eqn:Hp.
      * destruct Hold as (Hv & -> & Ha).
        destruct (Hlog _ _ Hp) as (Hc & Hlen & Hlast).
        split; [|split; [lia | reflexivity]].
        apply log_chain_snoc; try done; try lia.
        rewrite Hlast, Hsa, Hch. exact Ha.
      * destruct Hold as (Hv & ->).
        assert (events_of sess (p_id p') = []) as ->.
        { apply filter_none. intros e He Hep.
          destruct (Hfk _ He) as [q Hq]. congruence. }
        simpl. split; [|split; [lia | reflexivity]].
        repeat split; try done; lia.
    + intros Hk. rewrite filter_cons_False, filter_nil, app_nil_r by congruence.
      by apply Hlog.
  - intros e. rewrite Hev, elem_of_app, list_elem_of_singleton.
    intros [He| ->]; [by apply Hstr|].
    rewrite Hsa, Hch. split; [|exact Hty].
    unfold str_fields, has_str. rewrite !pessoa_to_dict_lookup. simpl.
    repeat split; eexists; reflexivity.
Qed.

(** ** What each handler commits *)

Lemma query_pessoa_inv (sess : Session) (pid : Z) (p : Pessoa) :
  query_pessoa sess pid = Some p ->
  pessoa sess !! pid = Some p /\ p_deleted p = false.
Proof.
  unfold query_pessoa. destruct (pessoa sess !! pid) as [q|]; [|done].
  destruct (p_deleted q) eqn:Hd; [done|]. by intros [= <-].
Qed.

Lemma patch_direct_inv (now : datetime) (sess sess' : Session) (pid : Z)
    (p p' : Pessoa) (payload : PessoaPatch) :
  pessoa sess !! pid = Some p ->
  p_deleted p = false ->
  patch_version payload = p_version p ->
  payload_changes payload <> ∅ ->
  patch_pessoa now sess pid payload = Ok (sess', p') ->
  p' = mkPessoa (p_id p)
         (default (p_nome p) (patch_nome payload))
         (default (p_cpf p) (patch_cpf payload))
         (default (p_data_nascimento p) (patch_data_nascimento payload))
         (p_version p + 1) (p_deleted p) (Some now) (p_created_at p)
  /\ sess' =
     persist_event now
       (mkSession (<[p_id p := p']> (pessoa sess)) (pessoa_event sess)
                  (pessoa_id_seq sess) (pessoa_event_id_seq sess))
       p' (p_version p) (payload_changes payload).
Proof.
  intros Hp Hd Hv Hne. unfold patch_pessoa.
  rewrite (query_pessoa_live _ _ _ Hp Hd).
  destruct (decide (patch_version payload <= 0)); [discriminate|].
  destruct (collect_provided_changes sess pid payload) as [pc|e] eqn:Hpc;
    [|discriminate].
  apply collect_provided_changes_inv in Hpc as ->. simpl.
  destruct (decide (payload_changes payload = ∅)); [done|].
  destruct (decide (patch_version payload = p_version p)); [|done].
  unfold get_str.
  rewrite payload_changes_nome, payload_changes_cpf,
    payload_changes_data_nascimento.
  destruct payload as [cv [nm|] [c|] [[d]|]]; simpl in *.
  all: repeat (destruct (decide (is_Some _)) as [Hs|Hs];
               [| try (exfalso; apply Hs; eauto)];
               try (by apply is_Some_None in Hs); clear Hs; simpl).
  all: unfold flush_update; simpl.
  all: destruct (cpf_unique_violation _ _ _); [discriminate|]; simpl.
  all: intros E; injection E as <- <-; split; try reflexivity.
  all: by destruct (p_data_nascimento p).
Qed.

Lemma create_pessoa_written (now : datetime) (sess sess' : Session)
    (payload : PessoaCreate) (p' : Pessoa) :
  session_wf sess ->
  create_pessoa now sess payload = Ok (sess', p') ->
  row_written now sess sess' p' /\ pessoa sess !! p_id p' = None.
Proof.
  intros [Hkey _ _ _]. unfold create_pessoa, create_pessoa_tx.
  destruct (query_cpf sess (create_cpf payload)) as [[q|]|e]; simpl;
    try discriminate.
  simpl. unfold flush_insert. simpl.
  destruct (cpf_unique_violation _ _ _); [discriminate|]. simpl.
  intros E. injection E as <- <-. simpl.
  assert (pessoa sess !! (pessoa_id_seq sess + 1) = None) as Hnone.
  { destruct (pessoa sess !! (pessoa_id_seq sess + 1)) as [q|] eqn:Hq;
      [|reflexivity].
    destruct (Hkey _ _ Hq). lia. }
  split; [|exact Hnone].
  eexists 0, _, (pessoa_id_seq sess + 1).
  split; [reflexivity|]. simpl. rewrite Hnone.
  split; [lia|]. split; [lia|].
  split; [by vm_compute|]. split; reflexivity.
Qed.

Lemma delete_pessoa_written (now : datetime) (sess sess' : Session)
    (pid version : Z) (p' : Pessoa) :
  session_wf sess ->
  delete_pessoa now sess pid version = Ok (sess', p') ->
  row_written now sess sess' p' /\ p_id p' = pid.
Proof.
  intros [Hkey _ _ _]. unfold delete_pessoa.
  destruct (query_pessoa sess pid) as [p|] eqn:Hq; [|discriminate].
  apply query_pessoa_inv in Hq as [Hp Hd].
  destruct (Hkey _ _ Hp) as [Hid Hseq].
  destruct (decide (version < p_version p)); [discriminate|].
  unfold flush_update. simpl.
  destruct (cpf_unique_violation _ _ _); [discriminate|]. simpl.
  intros E. injection E as <- <-. simpl.
  split; [|exact Hid].
  eexists (p_version p), _, (pessoa_id_seq sess).
  split; [reflexivity|]. simpl. rewrite Hid, Hp.
  split; [lia|]. split; [lia|].
  split; [by vm_compute|]. split; [lia|]. split; [reflexivity|].
  intros k Hv Hu. rewrite lookup_apply_changes, !pessoa_to_dict_lookup. simpl.
  destruct (decide (k = "deleted")) as [->|Hk].
  - vm_compute. reflexivity.
  - rewrite lookup_insert_ne, lookup_empty by done.
    repeat (destruct (decide (k = _)); [congruence|]). reflexivity.
Qed.

Lemma patch_pessoa_written (now : datetime) (sess sess' : Session)
    (pid : Z) (payload : PessoaPatch) (p' : Pessoa) :
  session_wf sess ->
  patch_pessoa now sess pid payload = Ok (sess', p') ->
  p_id p' = pid /\ (sess' = sess \/ row_written now sess sess' p').
Proof.
  intros [Hkey _ _ _] Hok.
  destruct (query_pessoa sess pid) as [p|] eqn:Hq; cycle 1.
  { unfold patch_pessoa in Hok. by rewrite Hq in Hok. }
  apply query_pessoa_inv in Hq as [Hp Hd].
  destruct (Hkey _ _ Hp) as [Hid Hseq].
  destruct (decide (payload_changes payload = ∅)) as [Hempty|Hne].
  { revert Hok. unfold patch_pessoa.
    rewrite (query_pessoa_live _ _ _ Hp Hd).
    destruct (decide (patch_version payload <= 0)); [discriminate|].
    destruct (collect_provided_changes sess pid payload) as [pc|e] eqn:Hpc;
      [|discriminate].
    apply collect_provided_changes_inv in Hpc as ->. simpl.
    destruct (decide (payload_changes payload = ∅)); [|done].
    intros [= <- <-]. split; [exact Hid | by left]. }
  destruct (decide (patch_version payload = p_version p)) as [Heq|Hneq].
  - destruct (patch_direct_inv _ _ _ _ _ _ _ Hp Hd Heq Hne Hok) as [-> ->].
    simpl. split; [exact Hid|]. right.
    eexists (p_version p), _, (pessoa_id_seq sess).
    split; [reflexivity|]. simpl. rewrite Hid, Hp.
    split; [lia|]. split; [lia|].
    split; [apply payload_changes_str|]. split; [lia|]. split; [reflexivity|].
    intros k Hv Hu. rewrite lookup_apply_changes, !pessoa_to_dict_lookup. simpl.
    destruct (decide (k = "nome")) as [->|?].
    { rewrite payload_changes_nome. by destruct (patch_nome payload). }
    destruct (decide (k = "cpf")) as [->|?].
    { rewrite payload_changes_cpf. by destruct (patch_cpf payload). }
    destruct (decide (k = "data_nascimento")) as [->|?].
    { rewrite payload_changes_data_nascimento.
      by destruct (patch_data_nascimento payload). }
    rewrite payload_changes_other by done.
    repeat (destruct (decide (k = _)); [congruence|]). reflexivity.
  - assert (patch_version payload < p_version p) as Hlt.
    { revert Hok. unfold patch_pessoa.
      rewrite (query_pessoa_live _ _ _ Hp Hd).
      destruct (decide (patch_version payload <= 0)); [discriminate|].
      destruct (collect_provided_changes sess pid payload) as [pc|e] eqn:Hpc;
        [|discriminate].
      apply collect_provided_changes_inv in Hpc as ->. simpl.
      destruct (decide (payload_changes payload = ∅)); [done|].
      destruct (decide (patch_version payload = p_version p)); [done|].
      destruct (decide (patch_version payload > p_version p));
        [discriminate|lia]. }
    destruct (patch_replay_inv _ _ _ _ _ _ _ Hp Hd Hlt Hne Hok)
      as (base & nome & cpf & d & _ & _ & -> & ->).
    simpl. split; [exact Hid|]. right.
    eexists (p_version p), _, (pessoa_id_seq sess).
    split; [reflexivity|]. simpl. rewrite Hid, Hp.
    split; [lia|]. split; [lia|].
    split; [by vm_compute|]. split; [lia|]. split; [reflexivity|].
    intros k Hv Hu. rewrite lookup_apply_changes, !pessoa_to_dict_lookup. simpl.
    destruct (decide (k = "nome")) as [->|?]; [vm_compute; reflexivity|].
    destruct (decide (k = "cpf")) as [->|?]; [vm_compute; reflexivity|].
    destruct (decide (k = "data_nascimento")) as [->|?];
      [vm_compute; reflexivity|].
    rewrite !lookup_insert_ne, lookup_empty by done.
    repeat (destruct (decide (k = _)); [congruence|]). reflexivity.
Qed.

Lemma handle_written (now : datetime) (sess sess' : Session) (req : request)
    (p' : Pessoa) :
  session_wf sess ->
  handle now sess req = Ok (sess', p') ->
  sess' = sess \/ row_written now sess sess' p'.
Proof.
  intros Hwf. destruct req as [payload|pid payload|pid version]; simpl.
  - intros H. right. by apply (create_pessoa_written _ _ _ _ _ Hwf) in H as [].
  - intros H. by apply (patch_pessoa_written _ _ _ _ _ _ Hwf) in H as [].
  - intros H. right. by apply (delete_pessoa_written _ _ _ _ _ _ Hwf) in H as [].
Qed.

Lemma row_written_wf (now : datetime) (sess sess' : Session) (p' : Pessoa) :
  session_wf sess -> row_written now sess sess' p' -> session_wf sess'.
Proof.
  intros Hwf (base & changes & seq' & -> & Hseq & Hid & Hty & Hold).
  by apply session_wf_commit.
Qed.

Lemma rolled_back_same (sess : Session) :
  rolled_back sess (pessoa_id_seq sess) = sess.
Proof. by destruct sess. Qed.

(** A request either commits what its handler returns or is rolled back,
    with the id sequence where it was or further on. *)
Lemma run_cases (now : datetime) (sess : Session) (req : request) :
  (exists sess' p',
     handle now sess req = Ok (sess', p') /\ run sess now req = sess')
  \/ (exists e id_seq,
        handle now sess req = Err e
        /\ pessoa_id_seq sess <= id_seq
        /\ run sess now req = rolled_back sess id_seq).
Proof.
  destruct req as [payload|pid payload|pid version]; simpl.
  - unfold create_pessoa, create_pessoa_tx.
    destruct (query_cpf sess (create_cpf payload)) as [[q|]|e]; simpl.
    + right. eexists _, _. repeat split. lia.
    + unfold flush_insert. simpl.
      destruct (cpf_unique_violation _ _ _); simpl.
      * right. eexists _, _. repeat split. lia.
      * left. by eexists _, _.
    + right. eexists _, _. repeat split. lia.
  - destruct (patch_pessoa now sess pid payload) as [[sess' p']|e].
    + left. by eexists _, _.
    + right. exists e, (pessoa_id_seq sess).
      rewrite rolled_back_same. repeat split. lia.
  - destruct (delete_pessoa now sess pid version) as [[sess' p']|e].
    + left. by eexists _, _.
    + right. exists e, (pessoa_id_seq sess).
      rewrite rolled_back_same. repeat split. lia.
Qed.

Lemma session_wf_rolled_back (sess : Session) (id_seq : Z) :
  session_wf sess -> pessoa_id_seq sess <= id_seq ->
  session_wf (rolled_back sess id_seq).
Proof.
  intros [Hkey Hfk Hlog Hstr] Hle. constructor; try done.
  intros k p Hk. destruct (Hkey _ _ Hk). split; [done|]. simpl. lia.
Qed.

Lemma reachable_wf (sess : Session) : reachable sess -> session_wf sess.
Proof.
  induction 1 as [|sess now req _ IH]; [apply session_wf_empty|].
  destruct (run_cases now sess req)
    as [(sess' & p' & E & ->)|(e & id_seq & _ & Hle & ->)];
    [|by apply session_wf_rolled_back].
  destruct (handle_written _ _ _ _ _ IH E) as [->|Hw]; [exact IH|].
  by eapply row_written_wf.
Qed.

(** ** The versions of the log *)

Lemma session_wf_contiguous (sess : Session) :
  session_wf sess -> versions_contiguous sess.
Proof.
  intros [Hkey Hfk Hlog _]. split.
  - intros pid p Hp. destruct (Hlog _ _ Hp) as (Hc & Hlen & Hlast).
    split.
    + destruct (events_of sess pid); [discriminate Hlast|].
      rewrite length_cons in Hlen. lia.
    + intros v. rewrite filter_and. fold (events_of sess pid).
      rewrite (log_chain_count _ _ v _ _ Hc). rewrite Hlen.
      repeat destruct (decide _); lia.
  - intros ev Hev. split; [|by apply Hfk].
    destruct (Hfk _ Hev) as [p Hp].
    destruct (Hlog _ _ Hp) as (Hc & _ & _).
    assert (ev ∈ events_of sess (ev_pessoa_id ev)) as Hin
      by (by apply list_elem_of_filter).
    by destruct (log_chain_versions _ _ _ _ _ Hc Hin) as (_ & ? & _).
Qed.

(** C6: in every session a history of requests leads to, and again after
    any further request, each entity's events carry the versions
    1 .. current, each exactly once, each with base_version =
    new_version - 1; and a request that succeeds either changes nothing or
    stores one row whose version is one more than the entity's version
    before (0 before creation) and appends exactly one event for that
    entity, from the version before to the new one. *)
Theorem version_log_invariant (sess : Session) :
  reachable sess ->
  versions_contiguous sess
  /\ (forall now req, versions_contiguous (run sess now req))
  /\ (forall now req sess' p',
        handle now sess req = Ok (sess', p') ->
        sess' = sess
        \/ exists ev,
             pessoa_event sess' = pessoa_event sess ++ [ev]
             /\ pessoa sess' = <[p_id p' := p']> (pessoa sess)
             /\ p_version p' = current_version sess (p_id p') + 1
             /\ ev_pessoa_id ev = p_id p'
             /\ ev_base_version ev = current_version sess (p_id p')
             /\ ev_new_version ev = current_version sess (p_id p') + 1).
Proof.
  intros Hr. pose proof (reachable_wf _ Hr) as Hwf.
  split; [by apply session_wf_contiguous|]. split.
  - intros now req. apply session_wf_contiguous, reachable_wf.
    by apply reachable_step.
  - intros now req sess' p' Hok.
    destruct (handle_written _ _ _ _ _ Hwf Hok)
      as [->|(base & changes & seq' & -> & _ & _ & _ & Hold)]; [by left|].
    right. eexists. split; [reflexivity|]. simpl.
    split; [reflexivity|]. unfold current_version.
    destruct (pessoa sess !! p_id p') as [p|].
    + destruct Hold as (-> & -> & _). repeat split; reflexivity.
    + destruct Hold as (-> & ->). repeat split; reflexivity.
Qed.

Lemma version_log_invariant_witness :
  versions_contiguous sess_replayed
  /\ (forall now req, versions_contiguous (run sess_replayed now req))
  /\ (forall now req sess' p',
        handle now sess_replayed req = Ok (sess', p') ->
        sess' = sess_replayed
        \/ exists ev,
             pessoa_event sess' = pessoa_event sess_replayed ++ [ev]
             /\ pessoa sess' = <[p_id p' := p']> (pessoa sess_replayed)
             /\ p_version p' = current_version sess_replayed (p_id p') + 1
             /\ ev_pessoa_id ev = p_id p'
             /\ ev_base_version ev = current_version sess_replayed (p_id p')
             /\ ev_new_version ev
                = current_version sess_replayed (p_id p') + 1).
Proof.
  apply (version_log_invariant sess_replayed).
  unfold sess_replayed, sess_renamed, sess_created.
  repeat apply reachable_step. apply reachable_empty.
Defined.

(** ** Replaying from a stored snapshot *)

Lemma replay_from_snapshot_wf (sess : Session) (pid : Z) (p : Pessoa) (v : Z) :
  session_wf sess ->
  pessoa sess !! pid = Some p ->
  1 <= v <= p_version p ->
  exists snap,
    snapshot_at_version sess pid v = Ok snap
    /\ snapshot_at_version sess pid (p_version p) = Ok (pessoa_to_dict p)
    /\ agree (replay_forward sess pid v (p_version p) snap) (pessoa_to_dict p).
Proof.
  intros [Hkey Hfk Hlog _] Hp Hv.
  destruct (Hlog _ _ Hp) as (Hc & Hlen & Hlast).
  destruct (chain_snapshot_replay pid 0 (p_version p) v None _ Hc)
    as (ev & c & Hf & Hl & Hagree & Hend); [lia | lia |].
  destruct (chain_snapshot_replay pid 0 (p_version p) (p_version p) None _ Hc)
    as (ev' & c' & Hf' & Hl' & _ & Hend'); [lia | lia |].
  rewrite Hlast in Hl, Hl'. injection Hl as <-. injection Hl' as <-.
  assert (forall w e, filter (fun e => ev_new_version e = w)
                             (events_of sess pid) = [e] ->
            snapshot_at_version sess pid w = Ok (ev_state_after e)) as Hsnap.
  { intros w e Hw. unfold snapshot_at_version. rewrite filter_and.
    fold (events_of sess pid). by rewrite Hw. }
  exists (ev_state_after ev). split; [by apply Hsnap|]. split.
  { rewrite (Hsnap _ _ Hf'). f_equal. symmetry. apply Hend'. lia. }
  destruct (decide (v = p_version p)) as [->|Hne].
  - unfold replay_forward.
    destruct (decide (p_version p <= p_version p)); [|lia].
    intros k _ _. rewrite Hend by lia. reflexivity.
  - rewrite replay_forward_unfold by lia. unfold query_events_between.
    rewrite filter_and. fold (events_of sess pid). exact Hagree.
Qed.

(** C5, as the code has it: in every session a history leads to, for every
    row and every version v from 1 to the row's version, the snapshot stored
    for v exists, and replaying from it up to the current version gives a
    state that has, on every key other than version and updated_at, the
    value of the current snapshot.  The current snapshot, the row as a
    dict, is the one stored for the current version. *)
Theorem replay_from_snapshot (sess : Session) (pid : Z) (p : Pessoa) (v : Z) :
  reachable sess ->
  pessoa sess !! pid = Some p ->
  1 <= v <= p_version p ->
  exists snap,
    snapshot_at_version sess pid v = Ok snap
    /\ snapshot_at_version sess pid (p_version p) = Ok (pessoa_to_dict p)
    /\ (forall k, k <> "version" -> k <> "updated_at" ->
          replay_forward sess pid v (p_version p) snap !! k
          = pessoa_to_dict p !! k).
Proof.
  intros Hr Hp Hv.
  destruct (replay_from_snapshot_wf sess pid p v (reachable_wf _ Hr) Hp Hv)
    as (snap & Hsnap & Hcur & Hagree).
  exists snap. split; [exact Hsnap|]. split; [exact Hcur|]. exact Hagree.
Qed.

Lemma replay_from_snapshot_witness :
  exists snap,
    snapshot_at_version sess_replayed 1 1 = Ok snap
    /\ snapshot_at_version sess_replayed 1 3 = Ok (pessoa_to_dict row_replayed)
    /\ (forall k, k <> "version" -> k <> "updated_at" ->
          replay_forward sess_replayed 1 1 3 snap !! k
          = pessoa_to_dict row_replayed !! k).
Proof.
  apply (replay_from_snapshot sess_replayed 1 row_replayed 1).
  - unfold sess_replayed, sess_renamed, sess_created.
    repeat apply reachable_step. apply reachable_empty.
  - vm_compute. reflexivity.
  - simpl. lia.
Defined.

(** C5 as stated fails: the entity is created (version 1) and renamed
    (version 2); the snapshot stored for version 1, replayed up to version
    2, still says version 1 and carries the old updated_at, so it is not the
    current snapshot. *)
Lemma replay_from_snapshot_counterexample :
  exists snap,
    reachable sess_renamed
    /\ pessoa sess_renamed !! 1 = Some row_renamed
    /\ 1 <= 1 <= p_version row_renamed
    /\ snapshot_at_version sess_renamed 1 1 = Ok snap
    /\ snapshot_at_version sess_renamed 1 (p_version row_renamed)
       = Ok (pessoa_to_dict row_renamed)
    /\ replay_forward sess_renamed 1 1 (p_version row_renamed) snap
         !! "version" = Some (VInt 1)
    /\ pessoa_to_dict row_renamed !! "version" = Some (VInt 2)
    /\ replay_forward sess_renamed 1 1 (p_version row_renamed) snap
       <> pessoa_to_dict row_renamed.
Proof.
  eexists. split.
  { unfold sess_renamed, sess_created.
    repeat apply reachable_step. apply reachable_empty. }
  split; [vm_compute; reflexivity|].
  split; [simpl; lia|].
  split; [vm_compute; reflexivity|].
  split; [vm_compute; reflexivity|].
  split; [vm_compute; reflexivity|].
  split; [vm_compute; reflexivity|].
  intros E. apply (f_equal (fun m : dict => m !! "version")) in E.
  vm_compute in E. discriminate.
Qed.

(** ** The replay path does commit *)

Lemma elem_of_insert_by_new_version (e ev : PessoaEvent)
    (evs : list PessoaEvent) :
  e ∈ insert_by_new_version ev evs <-> e = ev \/ e ∈ evs.
Proof.
  induction evs as [|ev' evs IH]; simpl.
  - rewrite list_elem_of_singleton, elem_of_nil. tauto.
  - destruct (decide (ev_new_version ev <= ev_new_version ev')).
    + by rewrite elem_of_cons.
    + rewrite !elem_of_cons, IH. tauto.
Qed.

Lemma elem_of_order_by_new_version (e : PessoaEvent) (evs : list PessoaEvent) :
  e ∈ order_by_new_version evs <-> e ∈ evs.
Proof.
  unfold order_by_new_version. induction evs as [|ev evs IH]; simpl.
  - reflexivity.
  - rewrite elem_of_insert_by_new_version, elem_of_cons, IH. tauto.
Qed.

Lemma str_fields_apply_changes (s c : dict) :
  str_fields s -> str_changes c -> str_fields (apply_changes s c).
Proof.
  unfold str_fields, str_changes, has_str, str_or_absent.
  intros (Hn & Hc & Hd) (Cn & Cc & Cd). rewrite !lookup_apply_changes.
  repeat split.
  - destruct (c !! "nome") as [[]|]; try done. by eexists.
  - destruct (c !! "cpf") as [[]|]; try done. by eexists.
  - destruct (c !! "data_nascimento") as [[]|]; try done. by eexists.
Qed.

Lemma str_fields_foldl (evs : list PessoaEvent) (s : dict) :
  str_fields s ->
  (forall ev, ev ∈ evs -> str_changes (ev_changes ev)) ->
  str_fields (foldl (fun s ev => apply_changes s (ev_changes ev)) s evs).
Proof.
  revert s. induction evs as [|ev evs IH]; intros s Hs Hall; [exact Hs|].
  simpl. apply IH.
  - apply str_fields_apply_changes; [exact Hs|]. apply Hall. left.
  - intros e He. apply Hall. by right.
Qed.

Lemma get_str_has_str (d : dict) (k : string) :
  has_str d k -> exists s, get_str d k = Ok s.
Proof. intros [s Hs]. exists s. unfold get_str. by rewrite Hs. Qed.

(** In a session a history leads to, a PATCH from a stale client (claimed
    version between 1 and current - 1) that carries a field and passes the
    cpf checks commits: the conclusions about successful replay-path
    patches are about requests that exist. *)
Theorem patch_replay_succeeds (now : datetime) (sess : Session) (pid : Z)
    (p : Pessoa) (payload : PessoaPatch) :
  reachable sess ->
  pessoa sess !! pid = Some p ->
  p_deleted p = false ->
  1 <= patch_version payload < p_version p ->
  payload_changes payload <> ∅ ->
  (forall c, patch_cpf payload = Some c ->
             query_cpf_other sess c pid = Ok None) ->
  (forall base c,
     snapshot_at_version sess pid (patch_version payload) = Ok base ->
     replay_forward sess pid (patch_version payload) (p_version p)
       (apply_changes base (payload_changes payload)) !! "cpf"
     = Some (VStr c) ->
     cpf_free sess pid c) ->
  exists sess' p', patch_pessoa now sess pid payload = Ok (sess', p').
Proof.
  intros Hr Hp Hd Hv Hne Hq Hfree.
  pose proof (reachable_wf _ Hr) as [Hkey Hfk Hlog Hstr].
  destruct (Hkey _ _ Hp) as [Hid _].
  destruct (Hlog _ _ Hp) as (Hc & Hlen & Hlast).
  destruct (chain_snapshot_replay pid 0 (p_version p) (patch_version payload)
              None _ Hc) as (ev & c & Hf & _); [lia | lia |].
  assert (ev ∈ pessoa_event sess) as Hev.
  { assert (ev ∈ [ev]) as Hin by left. rewrite <- Hf in Hin.
    apply list_elem_of_filter in Hin as [_ Hin].
    by apply list_elem_of_filter in Hin as [_ Hin]. }
  assert (snapshot_at_version sess pid (patch_version payload)
          = Ok (ev_state_after ev)) as Hsnap.
  { unfold snapshot_at_version. rewrite filter_and.
    fold (events_of sess pid). by rewrite Hf. }
  specialize (fun c => Hfree _ c Hsnap).
  set (final_state :=
         replay_forward sess pid (patch_version payload) (p_version p)
           (apply_changes (ev_state_after ev) (payload_changes payload))) in *.
  assert (str_fields final_state) as (Hn & Hcp & Hdn).
  { unfold final_state. rewrite replay_forward_unfold by lia.
    apply str_fields_foldl.
    - apply str_fields_apply_changes; [by apply Hstr|].
      apply payload_changes_str.
    - intros e He. apply Hstr. unfold query_events_between in He.
      rewrite elem_of_order_by_new_version, list_elem_of_filter in He.
      by destruct He. }
  destruct (get_str_has_str _ _ Hn) as [nome Hnome].
  destruct (get_str_has_str _ _ Hcp) as [cpf Hcpf].
  destruct (get_str_has_str _ _ Hdn) as [d Hdata].
  unfold patch_pessoa. rewrite (query_pessoa_live _ _ _ Hp Hd).
  destruct (decide (patch_version payload <= 0)); [lia|].
  rewrite (collect_provided_changes_ok _ _ _ Hq). simpl.
  destruct (decide (payload_changes payload = ∅)); [done|].
  destruct (decide (patch_version payload = p_version p)); [lia|].
  destruct (decide (patch_version payload > p_version p)); [lia|].
  rewrite Hsnap. simpl. fold final_state.
  rewrite Hnome. simpl. rewrite Hcpf. simpl. rewrite Hdata. simpl.
  unfold flush_update. simpl. rewrite Hid.
  rewrite cpf_free_no_violation; [by eexists _, _|].
  apply Hfree. by apply get_str_inv.
Qed.

Lemma patch_replay_succeeds_witness :
  exists sess' p',
    patch_pessoa t2 sess_renamed 1 (only_cpf 1 "123") = Ok (sess', p').
Proof.
  apply (patch_replay_succeeds t2 sess_renamed 1 row_renamed).
  - unfold sess_renamed, sess_created.
    repeat apply reachable_step. apply reachable_empty.
  - vm_compute. reflexivity.
  - reflexivity.
  - simpl. lia.
  - apply insert_non_empty.
  - intros c [= <-]. vm_compute. reflexivity.
  - intros base c _ _ k q Hk Hne.
    change (pessoa sess_renamed)
      with (<[1 := row_renamed]> (∅ : gmap Z Pessoa)) in Hk.
    rewrite lookup_insert_ne in Hk by done. by rewrite lookup_empty in Hk.
Defined.

(** ** The state a stale client's PATCH commits *)

Lemma foldl_apply_changes_key (evs : list PessoaEvent) (s1 s2 : dict)
    (k : string) :
  s1 !! k = s2 !! k ->
  foldl (fun s ev => apply_changes s (ev_changes ev)) s1 evs !! k
  = foldl (fun s ev => apply_changes s (ev_changes ev)) s2 evs !! k.
Proof.
  revert s1 s2. induction evs as [|ev evs IH]; intros s1 s2 H; [exact H|].
  simpl. apply IH. rewrite !lookup_apply_changes. by rewrite H.
Qed.

Lemma replay_forward_key (sess : Session) (pid from_v to_v : Z)
    (s1 s2 : dict) (k : string) :
  s1 !! k = s2 !! k ->
  replay_forward sess pid from_v to_v s1 !! k
  = replay_forward sess pid from_v to_v s2 !! k.
Proof.
  intros H. unfold replay_forward.
  destruct (decide (to_v <= from_v)); [exact H|].
  by apply foldl_apply_changes_key.
Qed.

Lemma patch_ok_version_positive (now : datetime) (sess sess' : Session)
    (pid : Z) (p p' : Pessoa) (payload : PessoaPatch) :
  pessoa sess !! pid = Some p ->
  p_deleted p = false ->
  patch_pessoa now sess pid payload = Ok (sess', p') ->
  1 <= patch_version payload.
Proof.
  intros Hp Hd. unfold patch_pessoa.
  rewrite (query_pessoa_live _ _ _ Hp Hd).
  destruct (decide (patch_version payload <= 0)); [discriminate|lia].
Qed.

(** The keys a payload cannot carry come out of the replay as the row has
    them. *)
Lemma replay_state_id_deleted (sess : Session) (pid : Z) (p : Pessoa)
    (payload : PessoaPatch) (base : dict) (k : string) :
  session_wf sess ->
  pessoa sess !! pid = Some p ->
  1 <= patch_version payload <= p_version p ->
  snapshot_at_version sess pid (patch_version payload) = Ok base ->
  k = "id" \/ k = "deleted" ->
  replay_forward sess pid (patch_version payload) (p_version p)
    (apply_changes base (payload_changes payload)) !! k
  = pessoa_to_dict p !! k.
Proof.
  intros Hwf Hp Hv Hbase Hk.
  destruct (replay_from_snapshot_wf _ _ _ _ Hwf Hp Hv)
    as (snap & Hsnap & _ & Hagree).
  rewrite Hbase in Hsnap. injection Hsnap as <-.
  rewrite <- Hagree by (destruct Hk as [-> | ->]; done).
  apply replay_forward_key. rewrite lookup_apply_changes.
  rewrite payload_changes_other by (destruct Hk as [-> | ->]; done).
  reflexivity.
Qed.

(** C2: after a successful replay-path PATCH the row is at version
    current + 1 and its fields are those of
    replay_forward(id, client, current, apply_changes(snapshot_at(id,
    client), provided)).  In that state a key that a later committed event
    touches holds the value of the last such event, whatever the client
    provided for it, and a key no later event touches holds what the
    client's edit left there.  In a session a history leads to, id and
    deleted of that state are those of the row as well. *)
Theorem patch_replay_state (now : datetime) (sess sess' : Session) (pid : Z)
    (p p' : Pessoa) (payload : PessoaPatch) :
  pessoa sess !! pid = Some p ->
  p_id p = pid ->
  p_deleted p = false ->
  patch_version payload < p_version p ->
  payload_changes payload <> ∅ ->
  patch_pessoa now sess pid payload = Ok (sess', p') ->
  exists base,
    snapshot_at_version sess pid (patch_version payload) = Ok base
    /\ (let final_state :=
          replay_forward sess pid (patch_version payload) (p_version p)
            (apply_changes base (payload_changes payload)) in
        let replayed :=
          query_events_between sess pid (patch_version payload)
                               (p_version p) in
        pessoa sess' !! pid = Some p'
        /\ p_version p' = p_version p + 1
        /\ final_state !! "nome" = Some (VStr (p_nome p'))
        /\ final_state !! "cpf" = Some (VStr (p_cpf p'))
        /\ final_state !! "data_nascimento"
           = Some (VStr (date_isoformat (p_data_nascimento p')))
        /\ (forall k l1 ev l2 v,
              replayed = l1 ++ ev :: l2 ->
              ev_changes ev !! k = Some v ->
              (forall ev', ev' ∈ l2 -> ev_changes ev' !! k = None) ->
              final_state !! k = Some v)
        /\ (forall k v,
              (forall ev, ev ∈ replayed -> ev_changes ev !! k = None) ->
              payload_changes payload !! k = Some v ->
              final_state !! k = Some v)
        /\ (reachable sess ->
            final_state !! "id" = Some (VInt (p_id p'))
            /\ final_state !! "deleted" = Some (VBool (p_deleted p')))).
Proof.
  intros Hp Hid Hd Hlt Hne Hok.
  pose proof (patch_ok_version_positive _ _ _ _ _ _ _ Hp Hd Hok) as Hpos.
  destruct (patch_replay_inv _ _ _ _ _ _ _ Hp Hd Hlt Hne Hok)
    as (base & nome & cpf & d & Hbase & (Hn & Hc & Hdn) & -> & ->).
  exists base. split; [exact Hbase|]. cbv zeta. simpl.
  rewrite Hid. rewrite lookup_insert_eq.
  repeat split; try done.
  - intros k l1 ev l2 v Hsplit Hv Hl2.
    rewrite replay_forward_unfold by lia. rewrite Hsplit.
    by apply foldl_apply_changes_last_writer.
  - intros k v Hnone Hv.
    rewrite replay_forward_unfold by lia.
    rewrite foldl_apply_changes_untouched by exact Hnone.
    rewrite lookup_apply_changes. by rewrite Hv.
  - pose proof (reachable_wf _ H) as Hwf.
    rewrite (replay_state_id_deleted _ _ _ _ _ "id" Hwf Hp);
      [|lia|exact Hbase|by left].
    rewrite pessoa_to_dict_lookup.
    repeat (destruct (decide _); [congruence|]). congruence.
  - pose proof (reachable_wf _ H) as Hwf.
    rewrite (replay_state_id_deleted _ _ _ _ _ "deleted" Hwf Hp);
      [|lia|exact Hbase|by right].
    rewrite pessoa_to_dict_lookup.
    repeat (destruct (decide _); [congruence|]). congruence.
Qed.

(** The example of C2: created with nome A, renamed to B at version 2, then
    a client at version 1 patches cpf to 123; the row ends at version 3 with
    nome B and cpf 123. *)
Lemma patch_replay_state_witness :
  p_nome row_replayed = "B"
  /\ p_cpf row_replayed = "123"
  /\ p_version row_replayed = 3
  /\ exists base,
    snapshot_at_version sess_renamed 1 1 = Ok base
    /\ (let final_state :=
          replay_forward sess_renamed 1 1 2
            (apply_changes base (payload_changes (only_cpf 1 "123"))) in
        let replayed := query_events_between sess_renamed 1 1 2 in
        pessoa sess_replayed !! 1 = Some row_replayed
        /\ p_version row_replayed = 2 + 1
        /\ final_state !! "nome" = Some (VStr "B")
        /\ final_state !! "cpf" = Some (VStr "123")
        /\ final_state !! "data_nascimento" = Some (VStr "1990-05-17")
        /\ (forall k l1 ev l2 v,
              replayed = l1 ++ ev :: l2 ->
              ev_changes ev !! k = Some v ->
              (forall ev', ev' ∈ l2 -> ev_changes ev' !! k = None) ->
              final_state !! k = Some v)
        /\ (forall k v,
              (forall ev, ev ∈ replayed -> ev_changes ev !! k = None) ->
              payload_changes (only_cpf 1 "123") !! k = Some v ->
              final_state !! k = Some v)
        /\ (reachable sess_renamed ->
            final_state !! "id" = Some (VInt 1)
            /\ final_state !! "deleted" = Some (VBool false))).
Proof.
  split; [reflexivity|]. split; [reflexivity|]. split; [reflexivity|].
  apply (patch_replay_state t2 sess_renamed sess_replayed 1 row_renamed
           row_replayed (only_cpf 1 "123")).
  - vm_compute. reflexivity.
  - reflexivity.
  - reflexivity.
  - simpl. lia.
  - apply insert_non_empty.
  - vm_compute. reflexivity.
Defined.


(** ** What a successful request wrote *)

Lemma flush_update_inv (now : datetime) (sess s : Session) (p q : Pessoa) :
  flush_update now sess p = Ok (s, q) ->
  cpf_unique_violation sess (p_id p) (p_cpf p) = false
  /\ q = mkPessoa (p_id p) (p_nome p) (p_cpf p) (p_data_nascimento p)
                  (p_version p) (p_deleted p) (Some now) (p_created_at p)
  /\ s = mkSession (<[p_id p := q]> (pessoa sess)) (pessoa_event sess)
                   (pessoa_id_seq sess) (pessoa_event_id_seq sess).
Proof.
  unfold flush_update. destruct (cpf_unique_violation _ _ _); [discriminate|].
  intros E. injection E as <- <-. done.
Qed.

Lemma flush_update_err (now : datetime) (sess : Session) (p : Pessoa)
    (e : error) :
  flush_update now sess p = Err e ->
  e = IntegrityError
  /\ cpf_unique_violation sess (p_id p) (p_cpf p) = true.
Proof.
  unfold flush_update.
  destruct (cpf_unique_violation _ _ _); [|discriminate].
  by intros [= <-].
Qed.

Lemma no_violation_cpf_free (sess : Session) (pid : Z) (c : string) :
  cpf_unique_violation sess pid c = false -> cpf_free sess pid c.
Proof.
  unfold cpf_unique_violation. intros H k q Hk Hne Hc.
  apply bool_decide_eq_false in H. apply H.
  rewrite Exists_exists. exists (k, q). split; [|done].
  by apply elem_of_map_to_list.
Qed.

Lemma delta_keys_intro (c : dict) :
  (forall k, k <> "nome" -> k <> "cpf" -> k <> "data_nascimento" ->
             k <> "deleted" -> c !! k = None) ->
  delta_keys c.
Proof.
  intros H k [v Hv].
  destruct (decide (k = "nome")); [tauto|].
  destruct (decide (k = "cpf")); [tauto|].
  destruct (decide (k = "data_nascimento")); [tauto|].
  destruct (decide (k = "deleted")); [tauto|].
  rewrite H in Hv by done. discriminate.
Qed.

Lemma payload_changes_delta_keys (payload : PessoaPatch) :
  delta_keys (payload_changes payload).
Proof.
  apply delta_keys_intro. intros k ? ? ? _. by apply payload_changes_other.
Qed.

Lemma create_pessoa_inv (now : datetime) (sess sess' : Session)
    (payload : PessoaCreate) (p' : Pessoa) :
  create_pessoa now sess payload = Ok (sess', p') ->
  query_cpf sess (create_cpf payload) = Ok None
  /\ cpf_unique_violation sess (pessoa_id_seq sess + 1) (create_cpf payload)
     = false
  /\ p' = mkPessoa (pessoa_id_seq sess + 1) (create_nome payload)
                   (create_cpf payload) (create_data_nascimento payload)
                   1 false (Some now) (Some now)
  /\ sess' =
     persist_event now
       (mkSession (<[pessoa_id_seq sess + 1 := p']> (pessoa sess))
                  (pessoa_event sess) (pessoa_id_seq sess + 1)
                  (pessoa_event_id_seq sess))
       p' 0
       (<["nome" := VStr (create_nome payload)]>
        (<["cpf" := VStr (create_cpf payload)]>
         (<["data_nascimento" :=
              VStr (date_isoformat (create_data_nascimento payload))]>
          (<["deleted" := VBool false]> ∅)))).
Proof.
  unfold create_pessoa, create_pessoa_tx.
  destruct (query_cpf sess (create_cpf payload)) as [[q|]|e]; simpl;
    try discriminate.
  simpl. unfold flush_insert. simpl.
  destruct (cpf_unique_violation _ _ _); [discriminate|]. simpl.
  intros E. injection E as <- <-. done.
Qed.

Lemma delete_pessoa_inv (now : datetime) (sess sess' : Session)
    (pid version : Z) (p' : Pessoa) :
  delete_pessoa now sess pid version = Ok (sess', p') ->
  exists p,
    query_pessoa sess pid = Some p
    /\ p_version p <= version
    /\ cpf_unique_violation sess (p_id p) (p_cpf p) = false
    /\ p' = mkPessoa (p_id p) (p_nome p) (p_cpf p) (p_data_nascimento p)
                     (p_version p + 1) true (Some now) (p_created_at p)
    /\ sess' =
       persist_event now
         (mkSession (<[p_id p := p']> (pessoa sess)) (pessoa_event sess)
                    (pessoa_id_seq sess) (pessoa_event_id_seq sess))
         p' (p_version p) (<["deleted" := VBool true]> ∅).
Proof.
  unfold delete_pessoa.
  destruct (query_pessoa sess pid) as [p|] eqn:Hq; [|discriminate].
  destruct (decide (version < p_version p)); [discriminate|].
  unfold flush_update. simpl.
  destruct (cpf_unique_violation _ _ _) eqn:Hc; [discriminate|]. simpl.
  intros E. injection E as <- <-. exists p.
  repeat split; try done. lia.
Qed.

Lemma bind_ok_inv {A B : Type} (c : result A) (k : A -> result B) (b : B) :
  bind c k = Ok b -> exists a, c = Ok a /\ k a = Ok b.
Proof. destruct c as [a|e]; simpl; [by exists a | discriminate]. Qed.

(** A PATCH that wrote went through the flush with the cpf it stored. *)
Lemma patch_pessoa_flushed (now : datetime) (sess sess' : Session) (pid : Z)
    (p p' : Pessoa) (payload : PessoaPatch) :
  pessoa sess !! pid = Some p ->
  p_deleted p = false ->
  payload_changes payload <> ∅ ->
  patch_pessoa now sess pid payload = Ok (sess', p') ->
  cpf_unique_violation sess (p_id p) (p_cpf p') = false.
Proof.
  intros Hp Hd Hne. unfold patch_pessoa.
  rewrite (query_pessoa_live _ _ _ Hp Hd).
  destruct (decide (patch_version payload <= 0)); [discriminate|].
  destruct (collect_provided_changes sess pid payload) as [pc|e] eqn:Hpc;
    [|discriminate].
  apply collect_provided_changes_inv in Hpc as ->. simpl.
  destruct (decide (payload_changes payload = ∅)); [done|].
  destruct (decide (patch_version payload = p_version p)).
  - intros Hok.
    apply bind_ok_inv in Hok as (p1 & H1 & Hok).
    apply bind_ok_inv in Hok as (p2 & H2 & Hok).
    apply bind_ok_inv in Hok as (p3 & H3 & Hok).
    apply bind_ok_inv in Hok as ([s q] & Hf & Hok).
    apply flush_update_inv in Hf as (Hc & -> & ->). simpl in *.
    injection Hok as <- <-. simpl.
    assert (p_id p1 = p_id p) as E1.
    { destruct (decide _); [|congruence].
      apply bind_ok_inv in H1 as (x & _ & [= <-]). reflexivity. }
    assert (p_id p2 = p_id p1) as E2.
    { destruct (decide (is_Some (_ !! "cpf"))); [|congruence].
      apply bind_ok_inv in H2 as (x & _ & [= <-]). reflexivity. }
    assert (p_id p3 = p_id p2) as E3.
    { destruct (decide (is_Some (_ !! "data_nascimento"))); [|congruence].
      apply bind_ok_inv in H3 as (x & _ & [= <-]). reflexivity. }
    by rewrite E3, E2, E1 in Hc.
  - destruct (decide (patch_version payload > p_version p)); [discriminate|].
    intros Hok.
    apply bind_ok_inv in Hok as (base & _ & Hok).
    apply bind_ok_inv in Hok as (nome & _ & Hok).
    apply bind_ok_inv in Hok as (cpf & _ & Hok).
    apply bind_ok_inv in Hok as (d & _ & Hok).
    apply bind_ok_inv in Hok as ([s q] & Hf & Hok).
    apply flush_update_inv in Hf as (Hc & -> & ->). simpl in *.
    injection Hok as <- <-. exact Hc.
Qed.

Lemma create_pessoa_step (now : datetime) (sess sess' : Session)
    (payload : PessoaCreate) (p' : Pessoa) :
  session_wf sess ->
  create_pessoa now sess payload = Ok (sess', p') ->
  step_facts now sess sess' p'.
Proof.
  intros [Hkey _ _ _] Hok.
  apply create_pessoa_inv in Hok as (_ & Hc & -> & ->).
  assert (pessoa sess !! (pessoa_id_seq sess + 1) = None) as Hnone.
  { destruct (pessoa sess !! (pessoa_id_seq sess + 1)) as [q|] eqn:Hq;
      [|reflexivity].
    destruct (Hkey _ _ Hq). lia. }
  eexists _, _, _. split; [reflexivity|]. simpl. rewrite Hnone.
  split; [exact Hc|]. split; [|done].
  apply delta_keys_intro. intros k ? ? ? ?.
  by rewrite !lookup_insert_ne, lookup_empty by done.
Qed.

Lemma delete_pessoa_step (now : datetime) (sess sess' : Session)
    (pid version : Z) (p' : Pessoa) :
  session_wf sess ->
  delete_pessoa now sess pid version = Ok (sess', p') ->
  step_facts now sess sess' p'.
Proof.
  intros [Hkey _ _ _] Hok.
  apply delete_pessoa_inv in Hok as (p & Hq & _ & Hc & -> & ->).
  apply query_pessoa_inv in Hq as [Hp Hd].
  destruct (Hkey _ _ Hp) as [Hid _].
  eexists _, _, _. split; [reflexivity|]. simpl.
  split; [exact Hc|]. split.
  { apply delta_keys_intro. intros k ? ? ? ?.
    by rewrite lookup_insert_ne, lookup_empty by done. }
  split; [reflexivity|]. by rewrite Hid, Hp.
Qed.

Lemma patch_pessoa_step (now : datetime) (sess sess' : Session)
    (pid : Z) (payload : PessoaPatch) (p' : Pessoa) :
  session_wf sess ->
  patch_pessoa now sess pid payload = Ok (sess', p') ->
  (sess' = sess /\ query_pessoa sess pid = Some p')
  \/ (step_facts now sess sess' p' /\ is_Some (query_pessoa sess pid)).
Proof.
  intros [Hkey _ _ _] Hok.
  destruct (query_pessoa sess pid) as [p|] eqn:Hq; cycle 1.
  { unfold patch_pessoa in Hok. by rewrite Hq in Hok. }
  pose proof Hq as Hq'. apply query_pessoa_inv in Hq as [Hp Hd].
  destruct (Hkey _ _ Hp) as [Hid Hseq].
  destruct (decide (payload_changes payload = ∅)) as [Hempty|Hne].
  { left. revert Hok. unfold patch_pessoa. rewrite Hq'.
    destruct (decide (patch_version payload <= 0)); [discriminate|].
    destruct (collect_provided_changes sess pid payload) as [pc|e] eqn:Hpc;
      [|discriminate].
    apply collect_provided_changes_inv in Hpc as ->. simpl.
    destruct (decide (payload_changes payload = ∅)); [|done].
    by intros [= <- <-]. }
  right. split; [|by eexists].
  pose proof (patch_pessoa_flushed _ _ _ _ _ _ _ Hp Hd Hne Hok) as Hc.
  destruct (decide (patch_version payload = p_version p)) as [Heq|Hneq].
  - destruct (patch_direct_inv _ _ _ _ _ _ _ Hp Hd Heq Hne Hok) as [-> ->].
    eexists _, _, _. split; [reflexivity|]. simpl in *.
    split; [exact Hc|]. split; [apply payload_changes_delta_keys|].
    split; [reflexivity|]. by rewrite Hid, Hp.
  - assert (patch_version payload < p_version p) as Hlt.
    { revert Hok. unfold patch_pessoa. rewrite Hq'.
      destruct (decide (patch_version payload <= 0)); [discriminate|].
      destruct (collect_provided_changes sess pid payload) as [pc|e] eqn:Hpc;
        [|discriminate].
      apply collect_provided_changes_inv in Hpc as ->. simpl.
      destruct (decide (payload_changes payload = ∅)); [done|].
      destruct (decide (patch_version payload = p_version p)); [done|].
      destruct (decide (patch_version payload > p_version p));
        [discriminate|lia]. }
    destruct (patch_replay_inv _ _ _ _ _ _ _ Hp Hd Hlt Hne Hok)
      as (base & nome & cpf & d & _ & _ & -> & ->).
    eexists _, _, _. split; [reflexivity|]. simpl in *.
    split; [exact Hc|]. split.
    { apply delta_keys_intro. intros k ? ? ? ?.
      by rewrite !lookup_insert_ne, lookup_empty by done. }
    split; [reflexivity|]. by rewrite Hid, Hp.
Qed.

Lemma handle_step (now : datetime) (sess sess' : Session) (req : request)
    (p' : Pessoa) :
  session_wf sess ->
  handle now sess req = Ok (sess', p') ->
  sess' = sess \/ step_facts now sess sess' p'.
Proof.
  intros Hwf. destruct req as [payload|pid payload|pid version]; simpl.
  - intros H. right. by apply create_pessoa_step in H.
  - intros H. apply (patch_pessoa_step _ _ _ _ _ _ Hwf) in H as [[-> _]|[H _]];
      [by left | by right].
  - intros H. right. by apply delete_pessoa_step in H.
Qed.

(** ** The schema of the log and the uniqueness of cpf *)

Lemma reachable_log_schema (sess : Session) : reachable sess -> log_schema sess.
Proof.
  induction 1 as [|sess now req Hr IH].
  { intros ev Hev. by apply elem_of_nil in Hev. }
  destruct (run_cases now sess req)
    as [(sess' & p' & E & ->)|(e & id_seq & _ & _ & ->)]; [|exact IH].
  destruct (handle_step _ _ _ _ _ (reachable_wf _ Hr) E)
    as [->|(base & changes & seq' & -> & _ & Hkeys & _)]; [exact IH|].
  intros ev. simpl. rewrite elem_of_app, list_elem_of_singleton.
  intros [Hev| ->]; [by apply IH|]. simpl.
  split; [exact Hkeys|]. by exists p'.
Qed.

Lemma reachable_cpf_unique (sess : Session) : reachable sess -> cpf_unique sess.
Proof.
  induction 1 as [|sess now req Hr IH].
  { intros k1 k2 p1 p2 H1. cbn in H1. by rewrite lookup_empty in H1. }
  destruct (run_cases now sess req)
    as [(sess' & p' & E & ->)|(e & id_seq & _ & _ & ->)]; [|exact IH].
  destruct (handle_step _ _ _ _ _ (reachable_wf _ Hr) E)
    as [->|(base & changes & seq' & -> & Hc & _)]; [exact IH|].
  apply no_violation_cpf_free in Hc.
  intros k1 k2 p1 p2. simpl. rewrite !lookup_insert.
  destruct (decide (p_id p' = k1)) as [<-|N1],
           (decide (p_id p' = k2)) as [<-|N2]; try done.
  - intros [= <-] H2 Hcpf. exfalso. by apply (Hc _ _ H2).
  - intros H1 [= <-] Hcpf. exfalso. by apply (Hc _ _ H1).
  - apply IH.
Qed.

(** * Further properties of the handlers *)

Ltac reach :=
  unfold sess_two, sess_deleted, sess_at_3, sess_replayed, sess_renamed,
    sess_created;
  repeat apply reachable_step; apply reachable_empty.

(** ** The cpf queries *)

Lemma at_most_one {A : Type} (l : list A) (x : A) :
  NoDup l -> (forall y, y ∈ l -> y = x) -> x ∈ l -> l = [x].
Proof.
  intros Hnd Hall Hin. destruct l as [|a [|b l]].
  - by apply elem_of_nil in Hin.
  - by rewrite (Hall a) by left.
  - exfalso. apply NoDup_cons in Hnd as [Hnot _]. apply Hnot.
    rewrite (Hall a) by left. rewrite <- (Hall b) by (right; left). left.
Qed.

Lemma NoDup_rows (sess : Session) :
  session_wf sess -> NoDup (map_to_list (pessoa sess)).*2.
Proof.
  intros [Hkey _ _ _]. apply NoDup_fmap_2_strong; [|apply NoDup_map_to_list].
  intros [k1 p1] [k2 p2] H1 H2. simpl. intros <-.
  apply elem_of_map_to_list in H1, H2.
  destruct (Hkey _ _ H1) as [<- _]. destruct (Hkey _ _ H2) as [<- _]. done.
Qed.

Lemma query_cpf_none (sess : Session) (c : string) :
  (forall k q, pessoa sess !! k = Some q -> p_cpf q = c -> p_deleted q = true) ->
  query_cpf sess c = Ok None.
Proof.
  intros H. unfold query_cpf. rewrite filter_none; [reflexivity|].
  intros q Hq [Hc Hd]. apply list_elem_of_fmap in Hq as ([k q'] & -> & Hin).
  apply elem_of_map_to_list in Hin. simpl in *.
  rewrite (H _ _ Hin Hc) in Hd. discriminate.
Qed.

Lemma query_cpf_some (sess : Session) (k : Z) (q : Pessoa) :
  session_wf sess -> cpf_unique sess ->
  pessoa sess !! k = Some q -> p_deleted q = false ->
  query_cpf sess (p_cpf q) = Ok (Some q).
Proof.
  intros Hwf Hu Hq Hd. unfold query_cpf.
  rewrite (at_most_one _ q); [reflexivity| | |].
  - apply NoDup_filter, NoDup_rows, Hwf.
  - intros y Hy. apply list_elem_of_filter in Hy as [[Hc _] Hy].
    apply list_elem_of_fmap in Hy as ([k' y'] & -> & Hin).
    apply elem_of_map_to_list in Hin. simpl in *.
    pose proof (Hu _ _ _ _ Hin Hq Hc) as ->. congruence.
  - apply list_elem_of_filter. split; [done|].
    apply list_elem_of_fmap. exists (k, q). split; [done|].
    by apply elem_of_map_to_list.
Qed.

Lemma query_cpf_other_some (sess : Session) (pid k : Z) (q : Pessoa) :
  cpf_unique sess ->
  pessoa sess !! k = Some q -> p_deleted q = false -> k <> pid ->
  query_cpf_other sess (p_cpf q) pid = Ok (Some q).
Proof.
  intros Hu Hq Hd Hne. unfold query_cpf_other.
  rewrite (at_most_one _ (k, q)); [reflexivity| | |].
  - apply NoDup_filter, NoDup_map_to_list.
  - intros [k' y] Hy. apply list_elem_of_filter in Hy as [(Hc & _ & _) Hy].
    apply elem_of_map_to_list in Hy. simpl in *.
    pose proof (Hu _ _ _ _ Hy Hq Hc) as ->. congruence.
  - apply list_elem_of_filter. split; [done|]. by apply elem_of_map_to_list.
Qed.

Lemma query_cpf_other_none (sess : Session) (pid : Z) (c : string) :
  (forall k q, pessoa sess !! k = Some q -> k <> pid -> p_cpf q = c ->
               p_deleted q = true) ->
  query_cpf_other sess c pid = Ok None.
Proof.
  intros H. unfold query_cpf_other. rewrite filter_none; [reflexivity|].
  intros [k q] Hin (Hc & Hne & Hd). apply elem_of_map_to_list in Hin.
  simpl in *. rewrite (H _ _ Hin Hne Hc) in Hd. discriminate.
Qed.

Lemma violation_intro (sess : Session) (pid k : Z) (q : Pessoa) :
  pessoa sess !! k = Some q -> k <> pid ->
  cpf_unique_violation sess pid (p_cpf q) = true.
Proof.
  intros Hq Hne. unfold cpf_unique_violation. apply bool_decide_eq_true.
  rewrite Exists_exists. exists (k, q). split; [|done].
  by apply elem_of_map_to_list.
Qed.

Lemma cpf_unique_free (sess : Session) (pid : Z) (p : Pessoa) :
  cpf_unique sess -> pessoa sess !! pid = Some p ->
  cpf_free sess pid (p_cpf p).
Proof. intros Hu Hp k q Hq Hne Hc. apply Hne. by apply (Hu _ _ _ _ Hq Hp). Qed.

(** ** POST /pessoas *)

(** X1: when no row, deleted or not, holds the payload's cpf, create_pessoa
    commits: the new row has the next id, the payload's fields, version 1
    and deleted = false; exactly one event is appended, the founding step
    0 -> 1 whose delta holds nome, cpf, data_nascimento and deleted = False
    and whose snapshot is the row; and a GET of the new id answers with that
    row. *)
Theorem create_pessoa_commits (now : datetime) (sess : Session)
    (payload : PessoaCreate) :
  (forall k q, pessoa sess !! k = Some q -> p_cpf q <> create_cpf payload) ->
  exists sess' p' ev,
    create_pessoa now sess payload = Ok (sess', p')
    /\ p' = mkPessoa (pessoa_id_seq sess + 1) (create_nome payload)
                     (create_cpf payload) (create_data_nascimento payload)
                     1 false (Some now) (Some now)
    /\ pessoa sess' = <[p_id p' := p']> (pessoa sess)
    /\ pessoa_event sess' = pessoa_event sess ++ [ev]
    /\ ev_pessoa_id ev = p_id p'
    /\ ev_base_version ev = 0
    /\ ev_new_version ev = 1
    /\ ev_changes ev =
       <["nome" := VStr (create_nome payload)]>
       (<["cpf" := VStr (create_cpf payload)]>
        (<["data_nascimento" :=
             VStr (date_isoformat (create_data_nascimento payload))]>
         (<["deleted" := VBool false]> ∅)))
    /\ ev_state_after ev = pessoa_to_dict p'
    /\ get_pessoa sess' (p_id p') = Ok p'.
Proof.
  intros Hfree. unfold create_pessoa, create_pessoa_tx.
  rewrite query_cpf_none; cycle 1.
  { intros k q Hq Hc. by destruct (Hfree _ _ Hq). }
  simpl. unfold flush_insert. simpl.
  rewrite cpf_free_no_violation; cycle 1.
  { intros k q Hq _. by apply Hfree in Hq. }
  simpl. eexists _, _, _. split; [reflexivity|].
  repeat split; try reflexivity.
  unfold get_pessoa, query_pessoa. simpl. by rewrite lookup_insert_eq.
Qed.

Lemma create_pessoa_commits_witness :
  exists sess' p' ev,
    create_pessoa t1 sess_created other_payload = Ok (sess', p')
    /\ p' = row_other
    /\ pessoa sess' = <[p_id p' := p']> (pessoa sess_created)
    /\ pessoa_event sess' = pessoa_event sess_created ++ [ev]
    /\ ev_pessoa_id ev = p_id p'
    /\ ev_base_version ev = 0
    /\ ev_new_version ev = 1
    /\ ev_changes ev =
       <["nome" := VStr "D"]>
       (<["cpf" := VStr "555"]>
        (<["data_nascimento" := VStr "1970-12-31"]>
         (<["deleted" := VBool false]> ∅)))
    /\ ev_state_after ev = pessoa_to_dict p'
    /\ get_pessoa sess' (p_id p') = Ok p'.
Proof.
  apply (create_pessoa_commits t1 sess_created other_payload).
  intros k q Hk.
  change (pessoa sess_created) with (<[1 := row_created]> (∅ : gmap Z Pessoa))
    in Hk.
  apply lookup_insert_Some in Hk as [[_ <-]|[_ Hk]]; [done|].
  by rewrite lookup_empty in Hk.
Defined.

(** X2: in a session a history leads to, create_pessoa with the cpf of a
    row that is not deleted raises Conflict (status 409) and leaves both
    tables as they were. *)
Theorem create_pessoa_conflict (now : datetime) (sess : Session)
    (payload : PessoaCreate) (k : Z) (q : Pessoa) :
  reachable sess ->
  pessoa sess !! k = Some q ->
  p_deleted q = false ->
  create_cpf payload = p_cpf q ->
  create_pessoa now sess payload = Err Conflict
  /\ status_code Conflict = 409
  /\ run sess now (CreatePessoa payload) = sess.
Proof.
  intros Hr Hq Hd Hc.
  assert (create_pessoa now sess payload = Err Conflict) as E.
  { unfold create_pessoa, create_pessoa_tx. rewrite Hc.
    rewrite (query_cpf_some _ _ _ (reachable_wf _ Hr)
               (reachable_cpf_unique _ Hr) Hq Hd). reflexivity. }
  split; [exact E|]. split; [reflexivity|].
  unfold run, create_pessoa_tx. rewrite Hc.
  rewrite (query_cpf_some _ _ _ (reachable_wf _ Hr)
             (reachable_cpf_unique _ Hr) Hq Hd).
  apply rolled_back_same.
Qed.

Lemma create_pessoa_conflict_witness :
  create_pessoa t1 sess_created same_cpf_payload = Err Conflict
  /\ status_code Conflict = 409
  /\ run sess_created t1 (CreatePessoa same_cpf_payload) = sess_created.
Proof.
  apply (create_pessoa_conflict t1 sess_created same_cpf_payload 1 row_created).
  - reach.
  - vm_compute. reflexivity.
  - reflexivity.
  - reflexivity.
Defined.

(** X3: in a session a history leads to, create_pessoa with the cpf of a
    soft-deleted row passes the handler's own check, which only looks at
    rows that are not deleted, and then fails on the unique constraint of
    the column: it raises IntegrityError, not Conflict.  The request is
    rolled back, so no row and no event is written, but the id its INSERT
    drew is spent: the id sequence is left one further on. *)
Theorem create_pessoa_deleted_cpf (now : datetime) (sess : Session)
    (payload : PessoaCreate) (k : Z) (q : Pessoa) :
  reachable sess ->
  pessoa sess !! k = Some q ->
  p_deleted q = true ->
  create_cpf payload = p_cpf q ->
  query_cpf sess (create_cpf payload) = Ok None
  /\ create_pessoa now sess payload = Err IntegrityError
  /\ run sess now (CreatePessoa payload)
     = rolled_back sess (pessoa_id_seq sess + 1)
  /\ pessoa (run sess now (CreatePessoa payload)) = pessoa sess
  /\ pessoa_event (run sess now (CreatePessoa payload)) = pessoa_event sess
  /\ pessoa_id_seq (run sess now (CreatePessoa payload))
     = pessoa_id_seq sess + 1.
Proof.
  intros Hr Hq Hd Hc.
  pose proof (reachable_wf _ Hr) as [Hkey _ _ _].
  pose proof (reachable_cpf_unique _ Hr) as Hu.
  assert (query_cpf sess (create_cpf payload) = Ok None) as Hnone.
  { apply query_cpf_none. intros k' q' Hq' Hc'.
    rewrite Hc in Hc'. pose proof (Hu _ _ _ _ Hq' Hq Hc') as ->. congruence. }
  assert (cpf_unique_violation sess (pessoa_id_seq sess + 1)
            (create_cpf payload) = true) as Hv.
  { rewrite Hc. apply (violation_intro _ _ _ _ Hq).
    destruct (Hkey _ _ Hq). lia. }
  assert (create_pessoa now sess payload = Err IntegrityError) as E.
  { unfold create_pessoa, create_pessoa_tx. rewrite Hnone. simpl.
    unfold flush_insert. simpl. by rewrite Hv. }
  assert (run sess now (CreatePessoa payload)
          = rolled_back sess (pessoa_id_seq sess + 1)) as R.
  { unfold run, create_pessoa_tx. rewrite Hnone. simpl.
    unfold flush_insert. simpl. by rewrite Hv. }
  split; [exact Hnone|]. split; [exact E|]. split; [exact R|].
  rewrite R. repeat split; reflexivity.
Qed.

Lemma create_pessoa_deleted_cpf_witness :
  query_cpf sess_deleted (create_cpf same_cpf_payload) = Ok None
  /\ create_pessoa t2 sess_deleted same_cpf_payload = Err IntegrityError
  /\ run sess_deleted t2 (CreatePessoa same_cpf_payload)
     = rolled_back sess_deleted (pessoa_id_seq sess_deleted + 1)
  /\ pessoa (run sess_deleted t2 (CreatePessoa same_cpf_payload))
     = pessoa sess_deleted
  /\ pessoa_event (run sess_deleted t2 (CreatePessoa same_cpf_payload))
     = pessoa_event sess_deleted
  /\ pessoa_id_seq (run sess_deleted t2 (CreatePessoa same_cpf_payload))
     = pessoa_id_seq sess_deleted + 1.
Proof.
  apply (create_pessoa_deleted_cpf t2 sess_deleted same_cpf_payload 1
           row_deleted).
  - reach.
  - vm_compute. reflexivity.
  - reflexivity.
  - reflexivity.
Defined.

(** ** DELETE /pessoas/{id} *)

(** X4: a DELETE on an existing, non-deleted entity with a claimed version
    below the current one raises Stale (status 409) and leaves both tables
    as they were. *)
Theorem delete_pessoa_stale (now : datetime) (sess : Session) (pid : Z)
    (p : Pessoa) (version : Z) :
  pessoa sess !! pid = Some p ->
  p_deleted p = false ->
  version < p_version p ->
  delete_pessoa now sess pid version = Err Stale
  /\ status_code Stale = 409
  /\ run sess now (DeletePessoa pid version) = sess.
Proof.
  intros Hp Hd Hv.
  assert (delete_pessoa now sess pid version = Err Stale) as E.
  { unfold delete_pessoa. rewrite (query_pessoa_live _ _ _ Hp Hd).
    destruct (decide (version < p_version p)); [reflexivity|lia]. }
  split; [exact E|]. split; [reflexivity|]. unfold run. simpl. by rewrite E.
Qed.

Lemma delete_pessoa_stale_witness :
  delete_pessoa t3 sess_replayed 1 2 = Err Stale
  /\ status_code Stale = 409
  /\ run sess_replayed t3 (DeletePessoa 1 2) = sess_replayed.
Proof.
  apply (delete_pessoa_stale t3 sess_replayed 1 row_replayed 2).
  - vm_compute. reflexivity.
  - reflexivity.
  - simpl. lia.
Defined.

(** X5: in a session a history leads to, a DELETE on an existing,
    non-deleted entity whose claimed version is the current one or any
    greater one always commits: the row keeps its fields, gets
    deleted = true and version current + 1, one event current -> current + 1
    with the delta deleted = True is appended, and from then on GET of the
    id raises NotFound. *)
Theorem delete_pessoa_commits (now : datetime) (sess : Session) (pid : Z)
    (p : Pessoa) (version : Z) :
  reachable sess ->
  pessoa sess !! pid = Some p ->
  p_deleted p = false ->
  p_version p <= version ->
  exists sess' p' ev,
    delete_pessoa now sess pid version = Ok (sess', p')
    /\ p' = mkPessoa pid (p_nome p) (p_cpf p) (p_data_nascimento p)
                     (p_version p + 1) true (Some now) (p_created_at p)
    /\ pessoa sess' = <[pid := p']> (pessoa sess)
    /\ pessoa_event sess' = pessoa_event sess ++ [ev]
    /\ ev_pessoa_id ev = pid
    /\ ev_base_version ev = p_version p
    /\ ev_new_version ev = p_version p + 1
    /\ ev_changes ev = {["deleted" := VBool true]}
    /\ ev_state_after ev = pessoa_to_dict p'
    /\ get_pessoa sess' pid = Err NotFound.
Proof.
  intros Hr Hp Hd Hv.
  pose proof (reachable_wf _ Hr) as [Hkey _ _ _].
  destruct (Hkey _ _ Hp) as [Hid _].
  unfold delete_pessoa. rewrite (query_pessoa_live _ _ _ Hp Hd).
  destruct (decide (version < p_version p)); [lia|].
  unfold flush_update. simpl. rewrite Hid.
  rewrite cpf_free_no_violation
    by (by apply cpf_unique_free; [apply reachable_cpf_unique|]).
  simpl. eexists _, _, _. split; [reflexivity|].
  repeat split; try reflexivity.
  unfold get_pessoa, query_pessoa. simpl. by rewrite lookup_insert_eq.
Qed.

Lemma delete_pessoa_commits_witness :
  exists sess' p' ev,
    delete_pessoa t1 sess_created 1 1 = Ok (sess', p')
    /\ p' = row_deleted
    /\ pessoa sess' = <[1 := p']> (pessoa sess_created)
    /\ pessoa_event sess' = pessoa_event sess_created ++ [ev]
    /\ ev_pessoa_id ev = 1
    /\ ev_base_version ev = 1
    /\ ev_new_version ev = 1 + 1
    /\ ev_changes ev = {["deleted" := VBool true]}
    /\ ev_state_after ev = pessoa_to_dict p'
    /\ get_pessoa sess' 1 = Err NotFound.
Proof.
  apply (delete_pessoa_commits t1 sess_created 1 row_created 1).
  - reach.
  - vm_compute. reflexivity.
  - reflexivity.
  - simpl. lia.
Defined.

(** ** What no request does to a row *)

(** X6: in a session a history leads to, whatever the next request is, a
    row that exists still exists afterwards with the same id and
    created_at; its version is the same or one more, and when the version
    is the same the whole row is the same; a soft-deleted row is never
    changed again. *)
Theorem rows_persist (sess : Session) (now : datetime) (req : request)
    (k : Z) (p : Pessoa) :
  reachable sess ->
  pessoa sess !! k = Some p ->
  exists p',
    pessoa (run sess now req) !! k = Some p'
    /\ p_id p' = p_id p
    /\ p_created_at p' = p_created_at p
    /\ (p_version p' = p_version p \/ p_version p' = p_version p + 1)
    /\ (p_version p' = p_version p -> p' = p)
    /\ (p_deleted p = true -> p' = p).
Proof.
  intros Hr Hp. pose proof (reachable_wf _ Hr) as Hwf.
  destruct Hwf as [Hkey Hfk Hlog Hstr].
  destruct (Hkey _ _ Hp) as [Hid _].
  destruct (run_cases now sess req)
    as [(sess' & q & E & ->)|(e & id_seq & _ & _ & ->)];
    [|exists p; repeat split; tauto].
  destruct (handle_step _ _ _ _ _ (reachable_wf _ Hr) E)
    as [->|(base & changes & seq' & -> & _ & _ & _ & Hold)];
    [exists p; repeat split; tauto|].
  simpl. destruct (decide (p_id q = k)) as [Hk|Hk].
  - rewrite Hk in Hold. rewrite Hp in Hold.
    destruct Hold as (Hd & Hc & Hv).
    exists q. rewrite Hk, lookup_insert_eq.
    split; [reflexivity|]. split; [congruence|]. split; [exact Hc|].
    split; [by right|]. split; [intros; lia|]. intros. congruence.
  - exists p. rewrite lookup_insert_ne by done. repeat split; tauto.
Qed.

Lemma rows_persist_witness :
  exists p',
    pessoa (run sess_deleted t2 (PatchPessoa 1 (only_nome 2 "Z"))) !! 1
      = Some p'
    /\ p_id p' = p_id row_deleted
    /\ p_created_at p' = p_created_at row_deleted
    /\ (p_version p' = p_version row_deleted
        \/ p_version p' = p_version row_deleted + 1)
    /\ (p_version p' = p_version row_deleted -> p' = row_deleted)
    /\ (p_deleted row_deleted = true -> p' = row_deleted).
Proof.
  apply (rows_persist sess_deleted t2 (PatchPessoa 1 (only_nome 2 "Z")) 1
           row_deleted).
  - reach.
  - vm_compute. reflexivity.
Defined.

(** ** PATCH /pessoas/{id} *)

(** X7: a PATCH with a positive claimed version and no field at all on an
    existing, non-deleted entity answers with the current row and writes
    nothing, whether the claimed version is behind, equal to or ahead of
    the current one. *)
Theorem patch_pessoa_no_changes (now : datetime) (sess : Session) (pid : Z)
    (p : Pessoa) (version : Z) :
  pessoa sess !! pid = Some p ->
  p_deleted p = false ->
  0 < version ->
  patch_pessoa now sess pid (only_version version) = Ok (sess, p)
  /\ run sess now (PatchPessoa pid (only_version version)) = sess.
Proof.
  intros Hp Hd Hv.
  assert (patch_pessoa now sess pid (only_version version) = Ok (sess, p))
    as E.
  { unfold patch_pessoa. rewrite (query_pessoa_live _ _ _ Hp Hd). simpl.
    destruct (decide (version <= 0)); [lia|]. reflexivity. }
  split; [exact E|]. unfold run. simpl. by rewrite E.
Qed.

Lemma patch_pessoa_no_changes_witness :
  patch_pessoa t3 sess_replayed 1 (only_version 1)
    = Ok (sess_replayed, row_replayed)
  /\ run sess_replayed t3 (PatchPessoa 1 (only_version 1)) = sess_replayed.
Proof.
  apply (patch_pessoa_no_changes t3 sess_replayed 1 row_replayed 1).
  - vm_compute. reflexivity.
  - reflexivity.
  - lia.
Defined.

(** X8: in a session a history leads to, a PATCH with a positive claimed
    version that provides the cpf of another row that is not deleted raises
    Conflict (status 409) before the versions are compared, so also when
    the claimed version is stale or ahead, and nothing is written. *)
Theorem patch_pessoa_conflict (now : datetime) (sess : Session) (pid k : Z)
    (p q : Pessoa) (payload : PessoaPatch) :
  reachable sess ->
  pessoa sess !! pid = Some p ->
  p_deleted p = false ->
  0 < patch_version payload ->
  pessoa sess !! k = Some q ->
  k <> pid ->
  p_deleted q = false ->
  patch_cpf payload = Some (p_cpf q) ->
  patch_pessoa now sess pid payload = Err Conflict
  /\ run sess now (PatchPessoa pid payload) = sess.
Proof.
  intros Hr Hp Hd Hv Hq Hne Hdq Hc.
  assert (patch_pessoa now sess pid payload = Err Conflict) as E.
  { unfold patch_pessoa. rewrite (query_pessoa_live _ _ _ Hp Hd).
    destruct (decide (patch_version payload <= 0)); [lia|].
    unfold collect_provided_changes. rewrite Hc. simpl.
    rewrite (query_cpf_other_some _ _ _ _ (reachable_cpf_unique _ Hr)
               Hq Hdq Hne). reflexivity. }
  split; [exact E|]. unfold run. simpl. by rewrite E.
Qed.

Lemma patch_pessoa_conflict_witness :
  patch_pessoa t2 sess_two 1 (only_cpf 7 "555") = Err Conflict
  /\ run sess_two t2 (PatchPessoa 1 (only_cpf 7 "555")) = sess_two.
Proof.
  apply (patch_pessoa_conflict t2 sess_two 1 2 row_created row_other
           (only_cpf 7 "555")).
  - reach.
  - vm_compute. reflexivity.
  - reflexivity.
  - simpl. lia.
  - vm_compute. reflexivity.
  - lia.
  - reflexivity.
  - reflexivity.
Defined.

(** X9: in a session a history leads to, the row a successful PATCH answers
    with is the row a GET of the same id then returns: it has the requested
    id and is stored, not deleted, under it. *)
Theorem patch_then_get (now : datetime) (sess sess' : Session) (pid : Z)
    (payload : PessoaPatch) (p' : Pessoa) :
  reachable sess ->
  patch_pessoa now sess pid payload = Ok (sess', p') ->
  p_id p' = pid /\ get_pessoa sess' pid = Ok p'.
Proof.
  intros Hr Hok. pose proof (reachable_wf _ Hr) as Hwf.
  destruct (patch_pessoa_written _ _ _ _ _ _ Hwf Hok) as [Hid _].
  split; [exact Hid|].
  destruct (patch_pessoa_step _ _ _ _ _ _ Hwf Hok)
    as [[-> Hq]|[(base & changes & seq' & -> & _ & _ & _ & Hold) [p Hq]]].
  - unfold get_pessoa. by rewrite Hq.
  - apply query_pessoa_inv in Hq as [Hp Hd].
    assert (p_deleted p' = false) as Hd'.
    { destruct (decide (payload_changes payload = ∅)) as [Hempty|Hne].
      - revert Hok. unfold patch_pessoa.
        rewrite (query_pessoa_live _ _ _ Hp Hd).
        destruct (decide (patch_version payload <= 0)); [discriminate|].
        destruct (collect_provided_changes sess pid payload) as [pc|e] eqn:Hpc;
          [|discriminate].
        apply collect_provided_changes_inv in Hpc as ->. simpl.
        destruct (decide (payload_changes payload = ∅)); [|done].
        by intros [= _ <-].
      - destruct (decide (patch_version payload = p_version p)) as [Heq|Hneq].
        + destruct (patch_direct_inv _ _ _ _ _ _ _ Hp Hd Heq Hne Hok)
            as [-> _]. exact Hd.
        + rewrite Hid, Hp in Hold. destruct Hold as (_ & _ & Hv).
          assert (patch_version payload < p_version p) as Hlt.
          { revert Hok. unfold patch_pessoa.
            rewrite (query_pessoa_live _ _ _ Hp Hd).
            destruct (decide (patch_version payload <= 0)); [discriminate|].
            destruct (collect_provided_changes sess pid payload)
              as [pc|e] eqn:Hpc; [|discriminate].
            apply collect_provided_changes_inv in Hpc as ->. simpl.
            destruct (decide (payload_changes payload = ∅)); [done|].
            destruct (decide (patch_version payload = p_version p)); [done|].
            destruct (decide (patch_version payload > p_version p));
              [discriminate|lia]. }
          destruct (patch_replay_inv _ _ _ _ _ _ _ Hp Hd Hlt Hne Hok)
            as (? & ? & ? & ? & _ & _ & -> & _). exact Hd. }
    unfold get_pessoa, query_pessoa. simpl.
    by rewrite Hid, lookup_insert_eq, Hd'.
Qed.

Lemma patch_then_get_witness :
  p_id row_replayed = 1 /\ get_pessoa sess_replayed 1 = Ok row_replayed.
Proof.
  apply (patch_then_get t2 sess_renamed sess_replayed 1 (only_cpf 1 "123")).
  - reach.
  - vm_compute. reflexivity.
Defined.

(** ** snapshot_at_version *)

(** X10: in a session a history leads to, snapshot_at_version answers for
    exactly the versions 1 .. current of an existing entity, with the
    snapshot of a row of that entity at that version; for any other version,
    and for an id that has no row, it raises VersionNotFound (status 409).
    It never finds two events for one version. *)
Theorem snapshot_at_version_range (sess : Session) (pid v : Z) :
  reachable sess ->
  (forall p, pessoa sess !! pid = Some p -> 1 <= v <= p_version p ->
     exists q, snapshot_at_version sess pid v = Ok (pessoa_to_dict q)
               /\ p_id q = pid /\ p_version q = v)
  /\ (forall p, pessoa sess !! pid = Some p -> ~ (1 <= v <= p_version p) ->
        snapshot_at_version sess pid v = Err VersionNotFound)
  /\ (pessoa sess !! pid = None ->
        snapshot_at_version sess pid v = Err VersionNotFound)
  /\ status_code VersionNotFound = 409.
Proof.
  intros Hr. pose proof (reachable_wf _ Hr) as Hwf.
  pose proof (session_wf_contiguous _ Hwf) as [Hcount _].
  pose proof (reachable_log_schema _ Hr) as Hschema.
  destruct Hwf as [Hkey Hfk Hlog Hstr].
  split; [|split; [|split; [|reflexivity]]].
  - intros p Hp Hv. destruct (Hcount _ _ Hp) as [_ Hlen].
    specialize (Hlen v). rewrite decide_True in Hlen by done.
    unfold snapshot_at_version.
    destruct (filter _ (pessoa_event sess)) as [|ev [|ev' l]] eqn:Hf;
      try discriminate Hlen.
    assert (ev ∈ filter (fun ev => ev_pessoa_id ev = pid
                                   /\ ev_new_version ev = v)
                        (pessoa_event sess)) as Hin by (rewrite Hf; left).
    apply list_elem_of_filter in Hin as [[Hpid Hnv] Hin].
    destruct (Hschema _ Hin) as (_ & q & Hsa & Hq1 & Hq2).
    exists q. simpl. rewrite Hsa. repeat split; congruence.
  - intros p Hp Hv. destruct (Hcount _ _ Hp) as [_ Hlen].
    specialize (Hlen v). rewrite decide_False in Hlen by done.
    unfold snapshot_at_version.
    destruct (filter _ (pessoa_event sess)); [reflexivity|discriminate Hlen].
  - intros Hnone. unfold snapshot_at_version.
    rewrite filter_none; [reflexivity|].
    intros ev Hev [Hpid _]. destruct (Hfk _ Hev) as [q Hq]. congruence.
Qed.

Lemma snapshot_at_version_range_witness :
  (forall p, pessoa sess_replayed !! 1 = Some p -> 1 <= 2 <= p_version p ->
     exists q, snapshot_at_version sess_replayed 1 2 = Ok (pessoa_to_dict q)
               /\ p_id q = 1 /\ p_version q = 2)
  /\ (forall p, pessoa sess_replayed !! 1 = Some p ->
        ~ (1 <= 2 <= p_version p) ->
        snapshot_at_version sess_replayed 1 2 = Err VersionNotFound)
  /\ (pessoa sess_replayed !! 1 = None ->
        snapshot_at_version sess_replayed 1 2 = Err VersionNotFound)
  /\ status_code VersionNotFound = 409.
Proof.
  apply (snapshot_at_version_range sess_replayed 1 2). reach.
Defined.

(** ** replay_forward *)

(** X11: in a session a history leads to, replay_forward never changes a
    key other than nome, cpf, data_nascimento and deleted: id, version,
    updated_at and any further key of the start state come out as they went
    in, for every entity and every pair of versions. *)
Theorem replay_forward_keeps_other_keys (sess : Session)
    (pid from_version to_version : Z) (state : dict) (k : string) :
  reachable sess ->
  k <> "nome" -> k <> "cpf" -> k <> "data_nascimento" -> k <> "deleted" ->
  replay_forward sess pid from_version to_version state !! k = state !! k.
Proof.
  intros Hr Hn Hc Hd Hdel. pose proof (reachable_log_schema _ Hr) as Hschema.
  unfold replay_forward. destruct (decide _); [reflexivity|].
  apply foldl_apply_changes_untouched. intros ev Hev.
  unfold query_events_between in Hev.
  rewrite elem_of_order_by_new_version, list_elem_of_filter in Hev.
  destruct Hev as [_ Hev]. destruct (Hschema _ Hev) as [Hkeys _].
  destruct (ev_changes ev !! k) as [x|] eqn:Hx; [|reflexivity].
  destruct (Hkeys k) as [?|[?|[?|?]]]; by eauto.
Qed.

Lemma replay_forward_keeps_other_keys_witness :
  replay_forward sess_replayed 1 1 3 (pessoa_to_dict row_created) !! "version"
  = pessoa_to_dict row_created !! "version".
Proof.
  apply (replay_forward_keeps_other_keys sess_replayed 1 1 3); [reach|done..].
Defined.

Lemma log_chain_sorted (pid n : Z) (prev : option dict)
    (evs : list PessoaEvent) :
  log_chain pid n prev evs ->
  StronglySorted (fun e1 e2 => ev_new_version e1 < ev_new_version e2) evs.
Proof.
  revert n prev. induction evs as [|e evs IH]; intros n prev Hc;
    [constructor|].
  pose proof Hc as Hc0. simpl in Hc. destruct Hc as (_ & _ & Hn & _ & Hc).
  constructor; [by eapply IH|].
  apply Forall_forall. intros x Hx.
  pose proof (log_chain_versions _ _ _ _ _ Hc Hx). lia.
Qed.

Lemma events_of_sorted (sess : Session) (pid : Z) :
  session_wf sess ->
  StronglySorted (fun e1 e2 => ev_new_version e1 < ev_new_version e2)
                 (events_of sess pid).
Proof.
  intros [Hkey Hfk Hlog _].
  destruct (pessoa sess !! pid) as [p|] eqn:Hp.
  - destruct (Hlog _ _ Hp) as (Hc & _). by eapply log_chain_sorted.
  - unfold events_of. rewrite filter_none; [constructor|].
    intros ev Hev Hpid. destruct (Hfk _ Hev) as [q Hq]. congruence.
Qed.

Lemma order_by_new_version_sorted (evs : list PessoaEvent) :
  StronglySorted (fun e1 e2 => ev_new_version e1 < ev_new_version e2) evs ->
  order_by_new_version evs = evs.
Proof.
  unfold order_by_new_version.
  induction 1 as [|e evs Hs IH Hall]; [reflexivity|].
  simpl. rewrite IH. destruct evs as [|e' evs]; [reflexivity|].
  simpl. apply Forall_cons in Hall as [Hlt _].
  destruct (decide (ev_new_version e <= ev_new_version e')); [reflexivity|lia].
Qed.

Lemma sorted_filter_range (evs : list PessoaEvent) (a b : Z) :
  StronglySorted (fun e1 e2 => ev_new_version e1 < ev_new_version e2) evs ->
  StronglySorted (fun e1 e2 => ev_new_version e1 < ev_new_version e2)
    (filter (fun e => ev_new_version e > a /\ ev_new_version e <= b) evs).
Proof.
  induction 1 as [|e evs Hs IH Hall]; [constructor|].
  rewrite filter_cons. destruct (decide _); [|exact IH].
  constructor; [exact IH|].
  apply Forall_forall. intros x Hx. apply list_elem_of_filter in Hx as [_ Hx].
  rewrite Forall_forall in Hall. by apply Hall.
Qed.

Lemma sorted_filter_split (evs : list PessoaEvent) (a b c : Z) :
  a <= b <= c ->
  StronglySorted (fun e1 e2 => ev_new_version e1 < ev_new_version e2) evs ->
  filter (fun e => ev_new_version e > a /\ ev_new_version e <= c) evs
  = filter (fun e => ev_new_version e > a /\ ev_new_version e <= b) evs
    ++ filter (fun e => ev_new_version e > b /\ ev_new_version e <= c) evs.
Proof.
  intros Habc. induction 1 as [|e evs Hs IH Hall]; [reflexivity|].
  rewrite Forall_forall in Hall.
  destruct (decide (ev_new_version e > a /\ ev_new_version e <= b)) as [H1|H1].
  - rewrite (filter_cons_True (fun e => _ > a /\ _ <= c)) by lia.
    rewrite (filter_cons_True (fun e => _ > a /\ _ <= b)) by lia.
    rewrite (filter_cons_False (fun e => _ > b /\ _ <= c)) by lia.
    simpl. by rewrite IH.
  - rewrite (filter_cons_False (fun e => _ > a /\ _ <= b)) by lia.
    destruct (decide (ev_new_version e > b /\ ev_new_version e <= c))
      as [H2|H2].
    + rewrite (filter_cons_True (fun e => _ > a /\ _ <= c)) by lia.
      rewrite (filter_cons_True (fun e => _ > b /\ _ <= c)) by lia.
      rewrite IH.
      rewrite (filter_none (fun e => _ > a /\ _ <= b) evs); [reflexivity|].
      intros x Hx. specialize (Hall _ Hx). simpl in Hall. lia.
    + rewrite (filter_cons_False (fun e => _ > a /\ _ <= c)) by lia.
      rewrite (filter_cons_False (fun e => _ > b /\ _ <= c)) by lia.
      exact IH.
Qed.

Lemma query_events_between_sorted (sess : Session) (pid a b : Z) :
  session_wf sess ->
  query_events_between sess pid a b
  = filter (fun e => ev_new_version e > a /\ ev_new_version e <= b)
           (events_of sess pid).
Proof.
  intros Hwf. unfold query_events_between. rewrite filter_and.
  fold (events_of sess pid).
  apply order_by_new_version_sorted, sorted_filter_range.
  by apply events_of_sorted.
Qed.

(** X12: in a session a history leads to, replays compose: replaying from
    version a to version b and then from b to c gives the state that
    replaying from a to c gives, for a <= b <= c. *)
Theorem replay_forward_compose (sess : Session) (pid a b c : Z) (state : dict) :
  reachable sess ->
  a <= b <= c ->
  replay_forward sess pid b c (replay_forward sess pid a b state)
  = replay_forward sess pid a c state.
Proof.
  intros Hr Habc. pose proof (reachable_wf _ Hr) as Hwf.
  unfold replay_forward.
  destruct (decide (b <= a)), (decide (c <= b)), (decide (c <= a));
    try lia; try reflexivity.
  - by replace b with a by lia.
  - by replace b with c by lia.
  - rewrite !query_events_between_sorted by done.
    rewrite (sorted_filter_split _ a b c) by (by try apply events_of_sorted).
    by rewrite foldl_app.
Qed.

Lemma replay_forward_compose_witness :
  replay_forward sess_replayed 1 2 3
    (replay_forward sess_replayed 1 1 2 (pessoa_to_dict row_created))
  = replay_forward sess_replayed 1 1 3 (pessoa_to_dict row_created).
Proof.
  apply (replay_forward_compose sess_replayed 1 1 2 3); [reach|lia].
Defined.

(** ** GET /pessoas *)

Lemma elem_of_insert_by_id (x kp : Z * Pessoa) (rows : list (Z * Pessoa)) :
  x ∈ insert_by_id kp rows <-> x = kp \/ x ∈ rows.
Proof.
  induction rows as [|kq rows IH]; simpl.
  - rewrite list_elem_of_singleton, elem_of_nil. tauto.
  - destruct (decide (kp.1 <= kq.1)).
    + by rewrite elem_of_cons.
    + rewrite !elem_of_cons, IH. tauto.
Qed.

Lemma elem_of_order_by_id (x : Z * Pessoa) (rows : list (Z * Pessoa)) :
  x ∈ order_by_id rows <-> x ∈ rows.
Proof.
  unfold order_by_id. induction rows as [|kq rows IH]; simpl.
  - reflexivity.
  - rewrite elem_of_insert_by_id, elem_of_cons, IH. tauto.
Qed.

Lemma insert_by_id_sorted (kp : Z * Pessoa) (rows : list (Z * Pessoa)) :
  StronglySorted (fun a b : Z * Pessoa => a.1 < b.1) rows ->
  (forall x, x ∈ rows -> x.1 <> kp.1) ->
  StronglySorted (fun a b : Z * Pessoa => a.1 < b.1) (insert_by_id kp rows).
Proof.
  induction 1 as [|kq rows Hs IH Hall]; intros Hne; simpl.
  - repeat constructor.
  - rewrite Forall_forall in Hall.
    assert (kq.1 <> kp.1) as Hq by (apply Hne; left).
    destruct (decide (kp.1 <= kq.1)).
    + constructor; [by constructor; [|apply Forall_forall]|].
      apply Forall_forall. intros x Hx.
      apply elem_of_cons in Hx as [->|Hx]; [lia|].
      specialize (Hall _ Hx). simpl in Hall. lia.
    + constructor.
      * apply IH. intros x Hx. apply Hne. by right.
      * apply Forall_forall. intros x Hx.
        apply elem_of_insert_by_id in Hx as [->|Hx]; [lia|by apply Hall].
Qed.

Lemma order_by_id_sorted (rows : list (Z * Pessoa)) :
  NoDup rows.*1 ->
  StronglySorted (fun a b : Z * Pessoa => a.1 < b.1) (order_by_id rows).
Proof.
  unfold order_by_id. induction rows as [|kp rows IH]; simpl; intros Hnd.
  - constructor.
  - apply NoDup_cons in Hnd as [Hnot Hnd].
    apply insert_by_id_sorted; [by apply IH|].
    intros x Hx Heq. apply Hnot. rewrite <- Heq.
    apply list_elem_of_fmap. exists x. split; [done|].
    by apply elem_of_order_by_id.
Qed.

(** The rows the two optional filters of the listing keep. *)
Lemma list_pessoas_rows (datetime_ge : datetime -> datetime -> bool)
    (sess : Session) (modified_since : option datetime)
    (include_deleted : bool) :
  exists rows,
    list_pessoas datetime_ge sess modified_since include_deleted
    = (order_by_id rows).*2
    /\ NoDup rows.*1
    /\ forall k p,
         (k, p) ∈ rows <->
         pessoa sess !! k = Some p
         /\ (include_deleted = false -> p_deleted p = false)
         /\ (forall since, modified_since = Some since ->
               updated_since datetime_ge since p = true).
Proof.
  assert (forall (P : Z * Pessoa -> Prop) `{!forall x, Decision (P x)},
            NoDup (filter P (map_to_list (pessoa sess))).*1) as Hnd.
  { intros P ?. apply NoDup_fmap_2_strong.
    - intros [k1 p1] [k2 p2] H1 H2. simpl. intros <-.
      apply list_elem_of_filter in H1 as [_ H1], H2 as [_ H2].
      apply elem_of_map_to_list in H1, H2. congruence.
    - apply NoDup_filter, NoDup_map_to_list. }
  unfold list_pessoas.
  destruct include_deleted, modified_since as [since|]; simpl;
    eexists; (split; [reflexivity|]).
  - split; [apply Hnd|]. intros k p.
    rewrite list_elem_of_filter, elem_of_map_to_list. simpl. intuition (try discriminate; simplify_eq; eauto).
  - split; [apply NoDup_fst_map_to_list|]. intros k p.
    rewrite elem_of_map_to_list. intuition (try discriminate; simplify_eq; eauto).
  - split; [rewrite list_filter_filter; apply Hnd|]. intros k p.
    rewrite !list_elem_of_filter, elem_of_map_to_list. simpl. intuition (try discriminate; simplify_eq; eauto).
  - split; [apply Hnd|]. intros k p.
    rewrite list_elem_of_filter, elem_of_map_to_list. simpl. intuition (try discriminate; simplify_eq; eauto).
Qed.

Lemma elem_of_list_pessoas (datetime_ge : datetime -> datetime -> bool)
    (sess : Session) (modified_since : option datetime)
    (include_deleted : bool) (p : Pessoa) :
  p ∈ list_pessoas datetime_ge sess modified_since include_deleted
  <-> exists k,
        pessoa sess !! k = Some p
        /\ (include_deleted = false -> p_deleted p = false)
        /\ (forall since, modified_since = Some since ->
              updated_since datetime_ge since p = true).
Proof.
  destruct (list_pessoas_rows datetime_ge sess modified_since include_deleted)
    as (rows & -> & _ & Hrows).
  rewrite list_elem_of_fmap. split.
  - intros ([k q] & -> & Hin). apply elem_of_order_by_id, Hrows in Hin.
    by exists k.
  - intros (k & Hk). exists (k, p). split; [done|].
    by apply elem_of_order_by_id, Hrows.
Qed.

(** X13: list_pessoas answers with exactly the rows of the table that pass
    its filters: a row is listed if and only if it is stored, it is not
    deleted unless include_deleted is set, and, when modified_since is
    given, its updated_at is at or after it. *)
Theorem list_pessoas_members (datetime_ge : datetime -> datetime -> bool)
    (sess : Session) (modified_since : option datetime)
    (include_deleted : bool) (p : Pessoa) :
  p ∈ list_pessoas datetime_ge sess modified_since include_deleted
  <-> exists k,
        pessoa sess !! k = Some p
        /\ (include_deleted = false -> p_deleted p = false)
        /\ (forall since, modified_since = Some since ->
              updated_since datetime_ge since p = true).
Proof. apply elem_of_list_pessoas. Qed.

(** X14: in a session a history leads to, list_pessoas answers in strictly
    ascending order of id, so no row is listed twice. *)
Theorem list_pessoas_ascending (datetime_ge : datetime -> datetime -> bool)
    (sess : Session) (modified_since : option datetime)
    (include_deleted : bool) :
  reachable sess ->
  StronglySorted (fun p q => p_id p < p_id q)
    (list_pessoas datetime_ge sess modified_since include_deleted).
Proof.
  intros Hr. pose proof (reachable_wf _ Hr) as [Hkey _ _ _].
  destruct (list_pessoas_rows datetime_ge sess modified_since include_deleted)
    as (rows & -> & Hnd & Hrows).
  apply (StronglySorted_fmap snd (fun a b => p_id a.2 < p_id b.2)); [done|].
  pose proof (order_by_id_sorted rows Hnd) as Hs.
  assert (forall x, x ∈ order_by_id rows -> p_id x.2 = x.1) as Hid.
  { intros [k q] Hx. apply elem_of_order_by_id, Hrows in Hx as [Hx _].
    by destruct (Hkey _ _ Hx). }
  induction Hs as [|x l Hs IH Hall]; [constructor|].
  constructor.
  - apply IH. intros y Hy. apply Hid. by right.
  - rewrite Forall_forall in Hall. apply Forall_forall. intros y Hy.
    rewrite (Hid x) by left. rewrite (Hid y) by (by right). by apply Hall.
Qed.

Lemma list_pessoas_ascending_witness :
  StronglySorted (fun p q => p_id p < p_id q)
    (list_pessoas (fun _ _ => true) sess_two (Some t0) false).
Proof.
  apply (list_pessoas_ascending (fun _ _ => true) sess_two (Some t0) false).
  reach.
Defined.

(** X15: in a session a history leads to, get_pessoa answers with a row
    for an id exactly when the unfiltered listing without deleted rows
    holds that row under that id. *)
Theorem get_pessoa_listed (datetime_ge : datetime -> datetime -> bool)
    (sess : Session) (pid : Z) (p : Pessoa) :
  reachable sess ->
  get_pessoa sess pid = Ok p
  <-> p ∈ list_pessoas datetime_ge sess None false /\ p_id p = pid.
Proof.
  intros Hr. pose proof (reachable_wf _ Hr) as [Hkey _ _ _].
  rewrite elem_of_list_pessoas. unfold get_pessoa. split.
  - destruct (query_pessoa sess pid) as [q|] eqn:Hq; [|discriminate].
    intros [= ->]. apply query_pessoa_inv in Hq as [Hp Hd].
    split; [|by destruct (Hkey _ _ Hp)].
    exists pid. repeat split; try done.
  - intros [(k & Hk & Hd & _) Hid].
    destruct (Hkey _ _ Hk) as [Hid' _].
    assert (k = pid) as -> by congruence.
    by rewrite (query_pessoa_live _ _ _ Hk (Hd eq_refl)).
Qed.

Lemma get_pessoa_listed_witness :
  get_pessoa sess_two 2 = Ok row_other
  <-> row_other ∈ list_pessoas (fun _ _ => true) sess_two None false
      /\ p_id row_other = 2.
Proof.
  apply (get_pessoa_listed (fun _ _ => true) sess_two 2 row_other). reach.
Defined.

(** ** The errors a request can end in *)

Lemma one_or_none_ok {A : Type} (l : list A) :
  NoDup l -> (forall x y, x ∈ l -> y ∈ l -> x = y) ->
  exists r, one_or_none l = Ok r.
Proof.
  intros Hnd Heq. destruct l as [|a [|b l]]; simpl; eauto.
  exfalso. apply NoDup_cons in Hnd as [Hnot _]. apply Hnot.
  rewrite (Heq a b); [left | left | right; left].
Qed.

Lemma query_cpf_ok (sess : Session) (c : string) :
  session_wf sess -> cpf_unique sess -> exists r, query_cpf sess c = Ok r.
Proof.
  intros Hwf Hu. unfold query_cpf. apply one_or_none_ok.
  - apply NoDup_filter, NoDup_rows, Hwf.
  - intros x y Hx Hy.
    apply list_elem_of_filter in Hx as [[Hcx _] Hx], Hy as [[Hcy _] Hy].
    apply list_elem_of_fmap in Hx as ([k1 x'] & -> & Hx).
    apply list_elem_of_fmap in Hy as ([k2 y'] & -> & Hy).
    apply elem_of_map_to_list in Hx, Hy. simpl in *.
    assert (k1 = k2) as -> by (apply (Hu _ _ _ _ Hx Hy); congruence).
    congruence.
Qed.

Lemma query_cpf_other_ok (sess : Session) (c : string) (pid : Z) :
  session_wf sess -> cpf_unique sess ->
  exists r, query_cpf_other sess c pid = Ok r.
Proof.
  intros [Hkey _ _ _] Hu. unfold query_cpf_other. apply one_or_none_ok.
  - apply NoDup_fmap_2_strong; [|apply NoDup_filter, NoDup_map_to_list].
    intros [k1 p1] [k2 p2] H1 H2. simpl. intros <-.
    apply list_elem_of_filter in H1 as [_ H1], H2 as [_ H2].
    apply elem_of_map_to_list in H1, H2.
    destruct (Hkey _ _ H1) as [<- _]. destruct (Hkey _ _ H2) as [<- _]. done.
  - intros x y Hx Hy.
    apply list_elem_of_fmap in Hx as ([k1 x'] & -> & Hx).
    apply list_elem_of_fmap in Hy as ([k2 y'] & -> & Hy).
    apply list_elem_of_filter in Hx as [(Hcx & _) Hx], Hy as [(Hcy & _) Hy].
    apply elem_of_map_to_list in Hx, Hy. simpl in *.
    assert (k1 = k2) as -> by (apply (Hu _ _ _ _ Hx Hy); congruence).
    congruence.
Qed.

Lemma collect_provided_changes_cases (sess : Session) (pid : Z)
    (payload : PessoaPatch) :
  session_wf sess -> cpf_unique sess ->
  collect_provided_changes sess pid payload = Err Conflict
  \/ collect_provided_changes sess pid payload = Ok (payload_changes payload).
Proof.
  intros Hwf Hu. unfold collect_provided_changes, payload_changes.
  destruct (patch_cpf payload) as [c|]; simpl; [|by right].
  destruct (query_cpf_other_ok sess c pid Hwf Hu) as [[q|] ->]; simpl;
    [by left | by right].
Qed.

(** The replay path finds its snapshot and the three text fields. *)
Lemma replay_prepared (sess : Session) (pid : Z) (p : Pessoa)
    (payload : PessoaPatch) :
  session_wf sess ->
  pessoa sess !! pid = Some p ->
  1 <= patch_version payload < p_version p ->
  exists base nome cpf d,
    snapshot_at_version sess pid (patch_version payload) = Ok base
    /\ (let final_state :=
          replay_forward sess pid (patch_version payload) (p_version p)
            (apply_changes base (payload_changes payload)) in
        get_str final_state "nome" = Ok nome
        /\ get_str final_state "cpf" = Ok cpf
        /\ get_str final_state "data_nascimento" = Ok d).
Proof.
  intros [Hkey Hfk Hlog Hstr] Hp Hv.
  destruct (Hlog _ _ Hp) as (Hc & Hlen & Hlast).
  destruct (chain_snapshot_replay pid 0 (p_version p) (patch_version payload)
              None _ Hc) as (ev & c & Hf & _); [lia | lia |].
  assert (ev ∈ pessoa_event sess) as Hev.
  { assert (ev ∈ [ev]) as Hin by left. rewrite <- Hf in Hin.
    apply list_elem_of_filter in Hin as [_ Hin].
    by apply list_elem_of_filter in Hin as [_ Hin]. }
  assert (snapshot_at_version sess pid (patch_version payload)
          = Ok (ev_state_after ev)) as Hsnap.
  { unfold snapshot_at_version. rewrite filter_and.
    fold (events_of sess pid). by rewrite Hf. }
  assert (str_fields
            (replay_forward sess pid (patch_version payload) (p_version p)
               (apply_changes (ev_state_after ev) (payload_changes payload))))
    as (Hn & Hcp & Hdn).
  { rewrite replay_forward_unfold by lia. apply str_fields_foldl.
    - apply str_fields_apply_changes; [by apply Hstr|].
      apply payload_changes_str.
    - intros e He. apply Hstr. unfold query_events_between in He.
      rewrite elem_of_order_by_new_version, list_elem_of_filter in He.
      by destruct He. }
  destruct (get_str_has_str _ _ Hn) as [nome Hnome].
  destruct (get_str_has_str _ _ Hcp) as [cpf Hcpf].
  destruct (get_str_has_str _ _ Hdn) as [d Hdata].
  by exists (ev_state_after ev), nome, cpf, d.
Qed.

Lemma patch_pessoa_errors (now : datetime) (sess : Session) (pid : Z)
    (payload : PessoaPatch) (e : error) :
  session_wf sess -> cpf_unique sess ->
  patch_pessoa now sess pid payload = Err e ->
  e = NotFound \/ e = InvalidVersion \/ e = Conflict \/ e = VersionAhead
  \/ e = IntegrityError.
Proof.
  intros Hwf Hu. unfold patch_pessoa.
  destruct (query_pessoa sess pid) as [p|] eqn:Hq; [|intros [= <-]; tauto].
  apply query_pessoa_inv in Hq as [Hp Hd].
  destruct (decide (patch_version payload <= 0)); [intros [= <-]; tauto|].
  destruct (collect_provided_changes_cases sess pid payload Hwf Hu)
    as [-> | ->]; simpl; [intros [= <-]; tauto|].
  destruct (decide (payload_changes payload = ∅)); [discriminate|].
  destruct (decide (patch_version payload = p_version p)).
  - unfold get_str.
    rewrite payload_changes_nome, payload_changes_cpf,
      payload_changes_data_nascimento.
    destruct payload as [cv [nm|] [c|] [[d]|]]; simpl in *.
    all: repeat (destruct (decide (is_Some _)) as [Hs|Hs];
                 [| try (exfalso; apply Hs; eauto)];
                 try (by apply is_Some_None in Hs); clear Hs; simpl).
    all: try done.
    all: destruct (flush_update now sess _) as [[s q]|e'] eqn:Hf; simpl;
      [discriminate|].
    all: apply flush_update_err in Hf as [-> _]; intros [= <-]; tauto.
  - destruct (decide (patch_version payload > p_version p));
      [intros [= <-]; tauto|].
    destruct (replay_prepared sess pid p payload Hwf Hp)
      as (base & nome & cpf & d & -> & Hn & Hc & Hdn); [lia|].
    simpl in *. rewrite Hn. simpl. rewrite Hc. simpl. rewrite Hdn. simpl.
    destruct (flush_update now sess _) as [[s q]|e'] eqn:Hf; simpl;
      [discriminate|].
    apply flush_update_err in Hf as [-> _]. intros [= <-]. tauto.
Qed.

(** X16: in a session a history leads to, a request that fails fails with
    NotFound, InvalidVersion, Conflict, VersionAhead, Stale or the unique
    constraint's IntegrityError.  The replay path always finds the snapshot
    of the claimed version and the three text fields in the replayed state,
    and no query meets two rows where it expects one: VersionNotFound,
    KeyError, TypeError and MultipleResultsFound are never raised. *)
Theorem handle_errors (now : datetime) (sess : Session) (req : request)
    (e : error) :
  reachable sess ->
  handle now sess req = Err e ->
  expected_error e
  /\ e <> VersionNotFound /\ e <> KeyError /\ e <> TypeError
  /\ e <> MultipleResultsFound.
Proof.
  intros Hr Herr. pose proof (reachable_wf _ Hr) as Hwf.
  pose proof (reachable_cpf_unique _ Hr) as Hu.
  assert (expected_error e) as He; cycle 1.
  { split; [exact He|].
    destruct He as [->|[->|[->|[->|[->| ->]]]]]; repeat split; discriminate. }
  unfold expected_error.
  destruct req as [payload|pid payload|pid version]; simpl in Herr.
  - revert Herr. unfold create_pessoa, create_pessoa_tx.
    destruct (query_cpf_ok sess (create_cpf payload) Hwf Hu) as [[q|] ->];
      simpl; [intros [= <-]; tauto|].
    unfold flush_insert. simpl.
    destruct (cpf_unique_violation _ _ _); [intros [= <-]; tauto|discriminate].
  - apply (patch_pessoa_errors _ _ _ _ _ Hwf Hu) in Herr. tauto.
  - revert Herr. unfold delete_pessoa.
    destruct (query_pessoa sess pid) as [p|]; [|intros [= <-]; tauto].
    destruct (decide (version < p_version p)); [intros [= <-]; tauto|].
    destruct (flush_update now sess _) as [[s q]|e'] eqn:Hf; simpl;
      [discriminate|].
    apply flush_update_err in Hf as [-> _]. intros [= <-]. tauto.
Qed.

Lemma handle_errors_witness :
  expected_error VersionAhead
  /\ VersionAhead <> VersionNotFound /\ VersionAhead <> KeyError
  /\ VersionAhead <> TypeError /\ VersionAhead <> MultipleResultsFound.
Proof.
  apply (handle_errors t3 sess_replayed (PatchPessoa 1 (only_nome 9 "Z"))).
  - reach.
  - vm_compute. reflexivity.
Defined.

(** ** The table and the log in every history *)

(** X17: in a session a history leads to, no two rows hold one cpf, deleted
    rows included: the unique constraint of the column holds after every
    request. *)
Theorem cpf_stays_unique (sess : Session) (k1 k2 : Z) (p1 p2 : Pessoa) :
  reachable sess ->
  pessoa sess !! k1 = Some p1 ->
  pessoa sess !! k2 = Some p2 ->
  p_cpf p1 = p_cpf p2 ->
  k1 = k2 /\ p1 = p2.
Proof.
  intros Hr H1 H2 Hc.
  pose proof (reachable_cpf_unique _ Hr _ _ _ _ H1 H2 Hc) as ->.
  split; [reflexivity | congruence].
Qed.

Lemma cpf_stays_unique_witness : (1 : Z) = 1 /\ row_created = row_created.
Proof.
  apply (cpf_stays_unique sess_two 1 1 row_created row_created).
  - reach.
  - vm_compute. reflexivity.
  - vm_compute. reflexivity.
  - reflexivity.
Defined.

(** X18: in a session a history leads to, every event of the log belongs to
    a stored row, its delta carries no key other than nome, cpf,
    data_nascimento and deleted, and its snapshot is pessoa_to_dict of a row
    with the event's entity id and the event's new_version: the snapshot
    persist_event stores always names the version the event leads to. *)
Theorem events_well_formed (sess : Session) (ev : PessoaEvent) :
  reachable sess ->
  ev ∈ pessoa_event sess ->
  is_Some (pessoa sess !! ev_pessoa_id ev)
  /\ (forall k, is_Some (ev_changes ev !! k) ->
        k = "nome" \/ k = "cpf" \/ k = "data_nascimento" \/ k = "deleted")
  /\ (exists q, ev_state_after ev = pessoa_to_dict q
                /\ p_id q = ev_pessoa_id ev
                /\ p_version q = ev_new_version ev)
  /\ ev_state_after ev !! "id" = Some (VInt (ev_pessoa_id ev))
  /\ ev_state_after ev !! "version" = Some (VInt (ev_new_version ev)).
Proof.
  intros Hr Hev. pose proof (reachable_wf _ Hr) as [_ Hfk _ _].
  destruct (reachable_log_schema _ Hr _ Hev) as (Hkeys & q & Hsa & Hid & Hv).
  split; [by apply Hfk|]. split; [exact Hkeys|].
  split; [by exists q|]. rewrite Hsa, !pessoa_to_dict_lookup. simpl.
  split; congruence.
Qed.

Lemma events_well_formed_witness :
  is_Some (pessoa sess_created !! ev_pessoa_id event_created)
  /\ (forall k, is_Some (ev_changes event_created !! k) ->
        k = "nome" \/ k = "cpf" \/ k = "data_nascimento" \/ k = "deleted")
  /\ (exists q, ev_state_after event_created = pessoa_to_dict q
                /\ p_id q = ev_pessoa_id event_created
                /\ p_version q = ev_new_version event_created)
  /\ ev_state_after event_created !! "id"
     = Some (VInt (ev_pessoa_id event_created))
  /\ ev_state_after event_created !! "version"
     = Some (VInt (ev_new_version event_created)).
Proof.
  apply (events_well_formed sess_created event_created).
  - reach.
  - assert (pessoa_event sess_created = [event_created]) as ->
      by (vm_compute; reflexivity).
    left.
Defined.

(** ** PATCH with the cpf of a soft-deleted row *)

(** X19: in a session a history leads to, a direct-path PATCH (claimed
    version equal to the current one) that provides the cpf of another row
    that is soft-deleted passes the handler's uniqueness check, which skips
    deleted rows, and then fails on the unique constraint of the column: it
    raises IntegrityError and nothing is written. *)
Theorem patch_pessoa_deleted_cpf (now : datetime) (sess : Session) (pid k : Z)
    (p q : Pessoa) (payload : PessoaPatch) :
  reachable sess ->
  pessoa sess !! pid = Some p ->
  p_deleted p = false ->
  patch_version payload = p_version p ->
  pessoa sess !! k = Some q ->
  k <> pid ->
  p_deleted q = true ->
  patch_cpf payload = Some (p_cpf q) ->
  query_cpf_other sess (p_cpf q) pid = Ok None
  /\ patch_pessoa now sess pid payload = Err IntegrityError
  /\ run sess now (PatchPessoa pid payload) = sess.
Proof.
  intros Hr Hp Hd Hv Hq Hne Hdq Hc.
  pose proof (reachable_wf _ Hr) as Hwf.
  pose proof (reachable_cpf_unique _ Hr) as Hu.
  destruct (session_wf_contiguous _ Hwf) as [Hver _].
  destruct (Hver _ _ Hp) as [Hpos _].
  destruct Hwf as [Hkey _ _ _]. destruct (Hkey _ _ Hp) as [Hid _].
  assert (query_cpf_other sess (p_cpf q) pid = Ok None) as Hnone.
  { apply query_cpf_other_none. intros k' q' Hq' _ Hc'.
    pose proof (Hu _ _ _ _ Hq' Hq Hc') as ->. congruence. }
  assert (patch_pessoa now sess pid payload = Err IntegrityError) as E.
  { unfold patch_pessoa. rewrite (query_pessoa_live _ _ _ Hp Hd).
    destruct (decide (patch_version payload <= 0)); [lia|].
    rewrite collect_provided_changes_ok
      by (intros c Hc'; rewrite Hc in Hc'; by injection Hc' as <-).
    simpl.
    assert (payload_changes payload <> ∅) as Hnonempty.
    { intros He. apply payload_changes_empty in He as (_ & He & _).
      congruence. }
    destruct (decide (payload_changes payload = ∅)); [done|].
    destruct (decide (patch_version payload = p_version p)); [|done].
    unfold get_str.
    rewrite payload_changes_nome, payload_changes_cpf,
      payload_changes_data_nascimento.
    destruct payload as [cv [nm|] [c|] [[d]|]]; simpl in *; try discriminate.
    all: injection Hc as ->.
    all: repeat (destruct (decide (is_Some _)) as [Hs|Hs];
                 [| try (exfalso; apply Hs; eauto)];
                 try (by apply is_Some_None in Hs); clear Hs; simpl).
    all: try done.
    all: unfold flush_update; simpl; rewrite Hid;
      by rewrite (violation_intro _ _ _ _ Hq Hne). }
  split; [exact Hnone|]. split; [exact E|]. unfold run. simpl. by rewrite E.
Qed.

Lemma patch_pessoa_deleted_cpf_witness :
  query_cpf_other sess_two_deleted (p_cpf row_other_deleted) 1 = Ok None
  /\ patch_pessoa t3 sess_two_deleted 1 (only_cpf 1 "555")
     = Err IntegrityError
  /\ run sess_two_deleted t3 (PatchPessoa 1 (only_cpf 1 "555"))
     = sess_two_deleted.
Proof.
  apply (patch_pessoa_deleted_cpf t3 sess_two_deleted 1 2 row_created
           row_other_deleted (only_cpf 1 "555")).
  - unfold sess_two_deleted. reach.
  - vm_compute. reflexivity.
  - reflexivity.
  - reflexivity.
  - vm_compute. reflexivity.
  - lia.
  - reflexivity.
  - reflexivity.
Defined.

(** ** Deltas compose, snapshots read back *)

(** X20: applying a delta and then a second one is applying the second
    laid over the first; the empty delta changes nothing; and the keys of
    the result are those of the state and of the delta together. *)
Theorem apply_changes_compose (s c1 c2 : dict) :
  apply_changes (apply_changes s c1) c2 = apply_changes s (apply_changes c1 c2)
  /\ apply_changes s ∅ = s
  /\ apply_changes ∅ c1 = c1
  /\ dom (apply_changes s c1) = dom s ∪ dom c1.
Proof.
  rewrite !apply_changes_union. repeat split.
  - by rewrite (assoc_L (∪)).
  - by rewrite (left_id_L ∅ (∪)).
  - by rewrite (right_id_L ∅ (∪)).
  - by rewrite dom_union_L, (comm_L (∪)).
Qed.

(** X21: two rows that pessoa_to_dict maps to one dict have the same id,
    nome, cpf, data_nascimento, version, deleted and updated_at, so they
    differ at most in created_at; the dict has exactly those seven keys. *)
Theorem pessoa_to_dict_reads_back (p q : Pessoa) :
  pessoa_to_dict p = pessoa_to_dict q ->
  p_id p = p_id q /\ p_nome p = p_nome q /\ p_cpf p = p_cpf q
  /\ p_data_nascimento p = p_data_nascimento q
  /\ p_version p = p_version q /\ p_deleted p = p_deleted q
  /\ p_updated_at p = p_updated_at q
  /\ dom (pessoa_to_dict p)
     = ({["id"; "nome"; "cpf"; "data_nascimento"; "version"; "deleted";
          "updated_at"]} : gset string).
Proof.
  intros E.
  assert (forall k, pessoa_to_dict p !! k = pessoa_to_dict q !! k) as H
    by (intros k; by rewrite E).
  pose proof (H "id") as H1. pose proof (H "nome") as H2.
  pose proof (H "cpf") as H3. pose proof (H "data_nascimento") as H4.
  pose proof (H "version") as H5. pose proof (H "deleted") as H6.
  pose proof (H "updated_at") as H7.
  rewrite !pessoa_to_dict_lookup in H1, H2, H3, H4, H5, H6, H7.
  simpl in *.
  injection H1 as ?. injection H2 as ?. injection H3 as ?.
  injection H4 as H4. injection H5 as ?. injection H6 as ?.
  injection H7 as H7.
  repeat split; try done.
  - destruct (p_data_nascimento p), (p_data_nascimento q).
    simpl in H4. congruence.
  - destruct (p_updated_at p) as [[a]|], (p_updated_at q) as [[b]|];
      simpl in H7; congruence.
Qed.

Lemma pessoa_to_dict_reads_back_witness :
  let q := mkPessoa 1 "A" "000" (Date "1990-05-17") 1 false (Some t0) (Some t3)
  in
  p_id row_created = p_id q
  /\ p_nome row_created = p_nome q
  /\ p_cpf row_created = p_cpf q
  /\ p_data_nascimento row_created = p_data_nascimento q
  /\ p_version row_created = p_version q
  /\ p_deleted row_created = p_deleted q
  /\ p_updated_at row_created = p_updated_at q
  /\ dom (pessoa_to_dict row_created)
     = ({["id"; "nome"; "cpf"; "data_nascimento"; "version"; "deleted";
          "updated_at"]} : gset string).
Proof.
  apply (pessoa_to_dict_reads_back row_created
           (mkPessoa 1 "A" "000" (Date "1990-05-17") 1 false (Some t0)
                     (Some t3))).
  reflexivity.
Defined.
